(** * RSS Sentinel Bot: the feed-check engine, embedded and verified

    A shallow embedding of [src/config.py], [src/database.py],
    [src/rss_parser.py] and [src/scheduler.py].

    - Python [str] values are [string]s of the ASCII fragment: [lower] folds
      [A-Z], [strip] removes the characters [str.isspace] accepts below 128.
    - ORM tables are lists of rows in insertion order; the [unique] index of
      [sent_items.item_hash] is enforced by the insert.
    - Normalised entries are Python dicts: [gmap string (option string)],
      [None] standing for Python's [None].
    - Library calls with no source in the repository ([hashlib.sha256],
      [re.search], [BeautifulSoup], [httpx] + [feedparser], the Telegram
      transport) are Section variables. *)

From Stdlib Require Import ZArith Ascii Bool Lia.
From Stdlib Require Import DecimalString DecimalZ.
From stdpp Require Import base strings list gmap.

Local Open Scope string_scope.

(** ** Python string primitives *)

Module PyStr.

Definition nl : string := String (ascii_of_nat 10) EmptyString.

Definition lower_char (c : ascii) : ascii :=
  let n := nat_of_ascii c in
  if (65 <=? n)%nat && (n <=? 90)%nat then ascii_of_nat (n + 32) else c.

(** [s.lower()] *)
Fixpoint lower (s : string) : string :=
  match s with
  | EmptyString => EmptyString
  | String c s' => String (lower_char c) (lower s')
  end.

(** [c.isspace()] for code points below 128 *)
Definition isspace (c : ascii) : bool :=
  let n := nat_of_ascii c in
  ((9 <=? n)%nat && (n <=? 13)%nat) || ((28 <=? n)%nat && (n <=? 32)%nat).

Fixpoint lstrip (s : string) : string :=
  match s with
  | EmptyString => EmptyString
  | String c s' => if isspace c then lstrip s' else s
  end.

Fixpoint rstrip (s : string) : string :=
  match s with
  | EmptyString => EmptyString
  | String c s' =>
      match rstrip s' with
      | EmptyString => if isspace c then EmptyString else String c EmptyString
      | r => String c r
      end
  end.

(** [s.strip()] *)
Definition strip (s : string) : string := rstrip (lstrip s).

(** [s.startswith(p)] *)
Definition startswith (s p : string) : bool := String.prefix p s.

(** [sub in s] *)
Fixpoint contains (sub s : string) : bool :=
  String.prefix sub s ||
  match s with
  | EmptyString => false
  | String _ s' => contains sub s'
  end.

(** [s[n:]] *)
Fixpoint slice_from (n : nat) (s : string) : string :=
  match n, s with
  | O, _ => s
  | S _, EmptyString => EmptyString
  | S k, String _ s' => slice_from k s'
  end.

(** [s[:n]] *)
Fixpoint slice_to (n : nat) (s : string) : string :=
  match n, s with
  | O, _ => EmptyString
  | S _, EmptyString => EmptyString
  | S k, String c s' => String c (slice_to k s')
  end.

(** The scan behind [s.split(sep)] for a non-empty [sep]: [skip] counts the
    characters of a separator just recognised that are still to be passed
    over, [cur] is the piece being collected. *)
Fixpoint split_go (sep s : string) (skip : nat) (cur : string) : list string :=
  match s with
  | EmptyString => [cur]
  | String c s' =>
      match skip with
      | S k => split_go sep s' k cur
      | O =>
          if String.prefix sep s
          then cur :: split_go sep s' (String.length sep - 1) EmptyString
          else split_go sep s' 0 (cur +:+ String c EmptyString)
      end
  end.

(** [s.split(sep)] *)
Definition split (sep s : string) : list string := split_go sep s 0 EmptyString.

(** [s.partition(sep)] for a non-empty [sep]: what precedes and what follows
    the first occurrence, [None] when there is none. *)
Fixpoint partition (sep s : string) : option (string * string) :=
  if String.prefix sep s then Some (EmptyString, slice_from (String.length sep) s)
  else
    match s with
    | EmptyString => None
    | String c s' =>
        match partition sep s' with
        | Some (before, after) => Some (String c before, after)
        | None => None
        end
    end.

(** [s.replace(a, b)] for one-character [a] and [b] *)
Fixpoint replace_char (a b : ascii) (s : string) : string :=
  match s with
  | EmptyString => EmptyString
  | String c s' =>
      String (if Ascii.eqb c a then b else c) (replace_char a b s')
  end.

(** [sep.join(l)] *)
Fixpoint join (sep : string) (l : list string) : string :=
  match l with
  | [] => EmptyString
  | [x] => x
  | x :: l' => x +:+ sep +:+ join sep l'
  end.

(** [str(n)] for an integer *)
Definition of_Z (n : Z) : string := NilZero.string_of_int (Z.to_int n).

(** truthiness of a [str] *)
Definition nonempty (s : string) : bool :=
  match s with EmptyString => false | String _ _ => true end.

Fixpoint all_chars (p : ascii -> bool) (s : string) : bool :=
  match s with
  | EmptyString => true
  | String c s' => p c && all_chars p s'
  end.

Definition is_digit_char (c : ascii) : bool :=
  let n := nat_of_ascii c in (48 <=? n)%nat && (n <=? 57)%nat.

(** [s.isdigit()] for code points below 128 *)
Definition isdigit (s : string) : bool := nonempty s && all_chars is_digit_char s.


Fixpoint int_digits (acc : Z) (s : string) : Z :=
  match s with
  | EmptyString => acc
  | String c s' => int_digits (10 * acc + Z.of_nat (nat_of_ascii c - 48)) s'
  end.

(** [int(s)] for a string of decimal digits *)
Definition to_int (s : string) : Z := int_digits 0 s.

End PyStr.

Import PyStr.

(** ** Exceptions and results *)

Inductive exn : Type :=
  | IntegrityError   (* sqlalchemy: a unique index rejected an insert *)
  | ReError          (* re.error, or any failure while evaluating a pattern *)
  | TransportError.  (* the Telegram call raised *)

Inductive result (A : Type) : Type :=
  | Ok (a : A)
  | Raise (e : exn).

Arguments Ok {A} a.
Arguments Raise {A} e.

(** ** src/config.py *)

Record Config : Type := mkConfig {
  admin_user_ids : list Z;
  refresh_interval : Z;
  history_days : Z
}.

Definition is_admin_mode (self : Config) : bool :=
  (0 <? length (admin_user_ids self))%nat.

Definition is_admin (self : Config) (user_id : Z) : bool :=
  if negb (is_admin_mode self) then true
  else bool_decide (user_id ∈ admin_user_ids self).

(** The default of [admin_user_ids], from the value of [ADMIN_USER_IDS] (the
    empty string when the variable is not set). *)
Definition parse_admin_user_ids (env : string) : list Z :=
  map (fun uid => to_int (strip uid))
      (List.filter (fun uid => isdigit (strip uid)) (split "," env)).

(** ** src/database.py: rows and tables *)

Record Feed : Type := mkFeed {
  f_id : Z;
  f_url : string;
  f_title : option string;
  f_description : option string;
  f_is_active : bool;
  f_error_count : Z;
  f_last_fetch : option Z
}.

Record Keyword : Type := mkKeyword {
  k_id : Z;
  k_feed_id : option Z;
  keyword : string;
  keyword_type : string;
  k_is_active : bool
}.

Record SentItem : Type := mkSentItem {
  item_hash : string;
  s_feed_id : Z;
  s_title : option string;
  s_url : string;
  sent_at : Z
}.

Record Database : Type := mkDatabase {
  feeds : list Feed;
  keywords : list Keyword;
  sent_items : list SentItem
}.

(** The keyword arguments [update_feed] is called with: one optional
    assignment per column. *)
Record FeedPatch : Type := mkFeedPatch {
  p_title : option (option string);
  p_description : option (option string);
  p_last_fetch : option (option Z);
  p_error_count : option Z;
  p_is_active : option bool
}.

Definition setattrs (kwargs : FeedPatch) (feed : Feed) : Feed :=
  {| f_id := f_id feed;
     f_url := f_url feed;
     f_title := default (f_title feed) (p_title kwargs);
     f_description := default (f_description feed) (p_description kwargs);
     f_is_active := default (f_is_active feed) (p_is_active kwargs);
     f_error_count := default (f_error_count feed) (p_error_count kwargs);
     f_last_fetch := default (f_last_fetch feed) (p_last_fetch kwargs) |}.

(** [query(Feed).filter(Feed.id == feed_id).first()], then a change of that
    row, then [commit()]. *)
Fixpoint on_first_feed (feed_id : Z) (f : Feed -> Feed) (rows : list Feed) : list Feed :=
  match rows with
  | [] => []
  | row :: rows' =>
      if (f_id row =? feed_id)%Z then f row :: rows'
      else row :: on_first_feed feed_id f rows'
  end.

Definition with_feeds (d : Database) (fs : list Feed) : Database :=
  {| feeds := fs; keywords := keywords d; sent_items := sent_items d |}.

Definition with_sent_items (d : Database) (l : list SentItem) : Database :=
  {| feeds := feeds d; keywords := keywords d; sent_items := l |}.

Definition with_keywords (d : Database) (l : list Keyword) : Database :=
  {| feeds := feeds d; keywords := l; sent_items := sent_items d |}.

Definition get_active_feeds (d : Database) : list Feed :=
  filter (fun feed => f_is_active feed = true) (feeds d).

Definition get_feed_by_id (feed_id : Z) (d : Database) : option Feed :=
  List.find (fun feed => (f_id feed =? feed_id)%Z) (feeds d).

Definition update_feed (feed_id : Z) (kwargs : FeedPatch) (d : Database) : Database :=
  with_feeds d (on_first_feed feed_id (setattrs kwargs) (feeds d)).

Definition bump_error (feed : Feed) : Feed :=
  let n := (f_error_count feed + 1)%Z in
  {| f_id := f_id feed;
     f_url := f_url feed;
     f_title := f_title feed;
     f_description := f_description feed;
     f_is_active := if (10 <=? n)%Z then false else f_is_active feed;
     f_error_count := n;
     f_last_fetch := f_last_fetch feed |}.

Definition increment_error (feed_id : Z) (d : Database) : Database :=
  with_feeds d (on_first_feed feed_id bump_error (feeds d)).

(** The kind and pattern [add_keyword] derives from its arguments. *)
Definition derive_keyword (keyword keyword_type : string) : string * string :=
  if startswith keyword "regex:" then (slice_from 7 keyword, "regex")
  else if startswith keyword "+" then (slice_from 1 keyword, "and")
  else if startswith keyword "|" then (slice_from 1 keyword, "or")
  else if contains " -" keyword then (keyword, "not")
  else (keyword, keyword_type).

(** The primary key the table assigns to a new row. *)
Definition next_keyword_id (rows : list Keyword) : Z :=
  foldr (fun row acc => Z.max (k_id row + 1) acc) 1%Z rows.

Definition add_keyword (keyword : string) (feed_id : option Z) (keyword_type : string)
    (d : Database) : Keyword * Database :=
  let '(kw_text, kw_type) := derive_keyword keyword keyword_type in
  let kw := {| k_id := next_keyword_id (keywords d);
               k_feed_id := feed_id;
               keyword := kw_text;
               keyword_type := kw_type;
               k_is_active := true |} in
  (kw, with_keywords d (keywords d ++ [kw])).

Definition get_global_keywords (d : Database) : list Keyword :=
  filter (fun kw => k_feed_id kw = None) (keywords d).

Definition get_feed_keywords (feed_id : Z) (d : Database) : list Keyword :=
  filter (fun kw => k_feed_id kw = Some feed_id) (keywords d).

Definition is_sent (h : string) (d : Database) : bool :=
  existsb (fun item => String.eqb (item_hash item) h) (sent_items d).

Definition SECONDS_PER_DAY : Z := 86400.

Definition clean_old_sent_items (now days : Z) (d : Database) : Database :=
  let cutoff := (now - days * SECONDS_PER_DAY)%Z in
  with_sent_items d
    (filter (fun item => ¬ (sent_at item < cutoff)%Z) (sent_items d)).

(** The primary key the table assigns to a new row. *)
Definition next_feed_id (rows : list Feed) : Z :=
  foldr (fun row acc => Z.max (f_id row + 1) acc) 1%Z rows.

Definition add_feed (url : string) (title description : option string) (d : Database)
    : Feed * Database :=
  match List.find (fun feed => String.eqb (f_url feed) url) (feeds d) with
  | Some existing => (existing, d)
  | None =>
      let feed := {| f_id := next_feed_id (feeds d);
                     f_url := url;
                     f_title := title;
                     f_description := description;
                     f_is_active := true;
                     f_error_count := 0;
                     f_last_fetch := None |} in
      (feed, with_feeds d (feeds d ++ [feed]))
  end.

Definition get_all_feeds (d : Database) : list Feed := feeds d.

Definition get_all_keywords (d : Database) : list Keyword := keywords d.

(** [query(Keyword).filter(Keyword.id == keyword_id).first()], then the
    deletion of that row. *)
Fixpoint delete_first_keyword (keyword_id : Z) (rows : list Keyword) : list Keyword :=
  match rows with
  | [] => []
  | row :: rows' =>
      if (k_id row =? keyword_id)%Z then rows'
      else row :: delete_first_keyword keyword_id rows'
  end.

Definition delete_keyword (keyword_id : Z) (d : Database) : Database :=
  with_keywords d (delete_first_keyword keyword_id (keywords d)).

(** ** src/rss_parser.py: what feedparser hands over *)

Record RawLink : Type := mkRawLink {
  l_type : option string;
  l_href : option string
}.

Record RawMedia : Type := mkRawMedia {
  m_type : option string;
  m_url : option string
}.

Record RawEntry : Type := mkRawEntry {
  r_title : option string;
  r_links : list RawLink;
  r_link : option string;
  r_summary : option string;
  r_description : option string;
  r_published : option string;
  r_updated : option string;
  r_media_content : list RawMedia;
  r_media_thumbnail : list RawMedia;
  r_enclosures : list RawLink;
  r_content : list string
}.

Record ParsedFeed : Type := mkParsedFeed {
  bozo : bool;
  pf_title : option string;
  pf_description : option string;
  pf_link : option string;
  pf_entries : list RawEntry
}.

(** The outcome of [client.get(url)], [raise_for_status()] and
    [feedparser.parse(response.text)]. *)
Inductive Response : Type :=
  | TimeoutException
  | HTTPStatusError (status_code : Z)
  | OtherException (msg : string)
  | Parsed (feed : ParsedFeed).

(** A Python dict with string keys whose values are [str] or [None]. *)
Abbreviation PyDict := (gmap string (option string)).

(** [d.get(key, dflt)] *)
Definition dict_get (d : PyDict) (key : string) (dflt : option string) : option string :=
  default dflt (d !! key).

(** truthiness of a value that is a [str] or [None] *)
Definition truthy (v : option string) : bool :=
  match v with
  | Some s => nonempty s
  | None => false
  end.

(** how an f-string renders it *)
Definition fmt (v : option string) : string :=
  match v with
  | Some s => s
  | None => "None"
  end.

Record FeedInfo : Type := mkFeedInfo {
  fi_title : string;
  fi_description : string;
  fi_link : string;
  fi_entries : list PyDict
}.

(** ** The state the engine runs on *)

Record Delivery : Type := mkDelivery {
  chat_id : Z;
  photo : option string;
  text : string
}.

Record World : Type := mkWorld {
  db : Database;
  is_running : bool;
  deliveries : list (Delivery * bool);  (* attempts, oldest first, with their outcome *)
  fetched : list string;                (* URLs requested, oldest first *)
  clock : Z
}.

Definition set_db (d : Database) (w : World) : World :=
  {| db := d; is_running := is_running w; deliveries := deliveries w;
     fetched := fetched w; clock := clock w |}.

Definition set_running (b : bool) (w : World) : World :=
  {| db := db w; is_running := b; deliveries := deliveries w;
     fetched := fetched w; clock := clock w |}.

Definition log_delivery (m : Delivery) (ok : bool) (w : World) : World :=
  {| db := db w; is_running := is_running w;
     deliveries := deliveries w ++ [(m, ok)];
     fetched := fetched w; clock := clock w |}.

Definition log_fetch (url : string) (w : World) : World :=
  {| db := db w; is_running := is_running w; deliveries := deliveries w;
     fetched := fetched w ++ [url]; clock := clock w |}.

(** Computations that change the world and return or raise. What was
    committed before a raise stays committed. *)
Definition M (A : Type) : Type := World -> result A * World.

Definition ret {A : Type} (a : A) : M A := fun w => (Ok a, w).

Definition bind {A B : Type} (m : M A) (k : A -> M B) : M B :=
  fun w =>
    match m w with
    | (Ok a, w') => k a w'
    | (Raise e, w') => (Raise e, w')
    end.

Definition raise {A : Type} (e : exn) : M A := fun w => (Raise e, w).

Definition modify (f : World -> World) : M unit := fun w => (Ok tt, f w).

Definition modify_db (f : Database -> Database) : M unit :=
  modify (fun w => set_db (f (db w)) w).

Definition read {A : Type} (f : World -> A) : M A := fun w => (Ok (f w), w).

(** [try: m except Exception as e: handler e] *)
Definition try_except {A : Type} (m : M A) (handler : exn -> M A) : M A :=
  fun w =>
    match m w with
    | (Ok a, w') => (Ok a, w')
    | (Raise e, w') => handler e w'
    end.

(** [try: m finally: fin] *)
Definition try_finally {A : Type} (m : M A) (fin : M unit) : M A :=
  fun w =>
    match m w with
    | (r, w') =>
        match fin w' with
        | (Ok _, w'') => (r, w'')
        | (Raise e, w'') => (Raise e, w'')
        end
    end.

(** [for x in l: body x] *)
Fixpoint for_each {A : Type} (l : list A) (body : A -> M unit) : M unit :=
  match l with
  | [] => ret tt
  | x :: l' => bind (body x) (fun _ => for_each l' body)
  end.

Notation "x <- m ;; k" := (bind m (fun x => k))
  (at level 100, m at next level, right associativity).
Notation "m ;;; k" := (bind m (fun _ => k))
  (at level 100, right associativity).

Section Engine.

(** [hashlib.sha256(s.encode()).hexdigest()] *)
Variable sha256_hexdigest : string -> string.

(** [re.search(pattern, text, re.IGNORECASE) is not None]; [None] when the
    call raises. *)
Variable re_search : string -> string -> option bool.

(** [BeautifulSoup(text, "lxml").get_text(separator=" ", strip=True)] *)
Variable get_text : string -> string.

(** [BeautifulSoup(content, "lxml").find("img")]: [None] without an [img]
    tag, otherwise its [src] attribute, which may be missing. *)
Variable find_img : string -> option (option string).

(** What the network returns for a URL. *)
Variable http_get : string -> Response.

(** Whether [bot.send_photo] / [bot.send_message] returns ([true]) or
    raises ([false]). *)
Variable bot_send : Delivery -> bool.

(** The global [config]. *)
Variable config : Config.

(** *** src/database.py: [mark_sent] *)

Definition compute_hash (feed_id : Z) (url : string) : string :=
  sha256_hexdigest (of_Z feed_id +:+ ":" +:+ url).

(** [session.add(item); session.commit()]: the unique index on [item_hash]
    rejects a second row with the same hash, the commit raises and nothing is
    stored. *)
Definition insert_sent_item (item : SentItem) (d : Database) : result Database :=
  if is_sent (item_hash item) d then Raise IntegrityError
  else Ok (with_sent_items d (sent_items d ++ [item])).

Definition mark_sent_db (feed_id : Z) (title : option string) (url : string) (now : Z)
    (d : Database)
    : result Database :=
  let item_hash := compute_hash feed_id url in
  insert_sent_item
    {| item_hash := item_hash; s_feed_id := feed_id; s_title := title;
       s_url := url; sent_at := now |} d.

Definition mark_sent (feed_id : Z) (title : option string) (url : string) : M unit :=
  fun w =>
    match mark_sent_db feed_id title url (clock w) (db w) with
    | Ok d' => (Ok tt, set_db d' w)
    | Raise e => (Raise e, w)
    end.

(** *** src/rss_parser.py *)

Fixpoint first_html_link (links : list RawLink) : string :=
  match links with
  | [] => ""
  | l :: rest =>
      if startswith (default "" (l_type l)) "text/html"
      then default "" (l_href l)
      else first_html_link rest
  end.

Definition _clean_html (text : string) : string :=
  if negb (nonempty text) then "" else get_text text.

(** The first item whose type starts with [image/]: [Some] of what the loop
    returns, [None] when the loop runs to its end. *)
Fixpoint first_image {A : Type} (type_of : A -> option string) (val : A -> option string)
    (l : list A) : option (option string) :=
  match l with
  | [] => None
  | x :: rest =>
      if startswith (default "" (type_of x)) "image/" then Some (val x)
      else first_image type_of val rest
  end.

Definition _extract_image (entry : RawEntry) : option string :=
  match first_image m_type m_url (r_media_content entry) with
  | Some v => v
  | None =>
      match r_media_thumbnail entry with
      | m :: _ => m_url m
      | [] =>
          match first_image l_type l_href (r_enclosures entry) with
          | Some v => v
          | None =>
              match r_content entry with
              | content :: _ =>
                  match find_img content with
                  | Some src => src
                  | None => None
                  end
              | [] => None
              end
          end
      end
  end.

Definition _parse_entry (entry : RawEntry) : option PyDict :=
  let title := strip (default "Untitled" (r_title entry)) in
  if negb (nonempty title) then None
  else
    let link := first_html_link (r_links entry) in
    let link := if negb (nonempty link) then default "" (r_link entry) else link in
    let summary :=
      match r_summary entry with
      | Some s => s
      | None => default "" (r_description entry)
      end in
    let summary := _clean_html summary in
    let published :=
      match r_published entry with
      | Some p => Some p
      | None => r_updated entry
      end in
    let image := _extract_image entry in
    Some (<["title" := Some title]>
          (<["link" := Some link]>
           (<["summary" := Some (slice_to 500 summary)]>
            (<["published" := published]>
             (<["image" := image]> ∅))))).

(** [for entry in entries: item = _parse_entry(entry); if item: append] *)
Fixpoint parse_entries (entries : list RawEntry) : list PyDict :=
  match entries with
  | [] => []
  | entry :: rest =>
      match _parse_entry entry with
      | Some item => item :: parse_entries rest
      | None => parse_entries rest
      end
  end.

Definition fetch_feed (url : string) : bool * option FeedInfo * option string :=
  match http_get url with
  | Parsed feed =>
      if bozo feed && negb (0 <? length (pf_entries feed))%nat
      then (false, None, Some "Invalid RSS feed format")
      else
        (true,
         Some {| fi_title := default "Unknown" (pf_title feed);
                 fi_description := default "" (pf_description feed);
                 fi_link := default "" (pf_link feed);
                 fi_entries := parse_entries (take 50 (pf_entries feed)) |},
         None)
  | TimeoutException => (false, None, Some "Request timeout")
  | HTTPStatusError code => (false, None, Some ("HTTP error: " +:+ of_Z code))
  | OtherException msg => (false, None, Some msg)
  end.

(** *** src/scheduler.py: the matcher *)

(** The [try] block of [_match_keyword]. *)
Definition match_body (title summary : string) (kw : Keyword) : result bool :=
  let text := lower (title +:+ " " +:+ summary) in
  let kw_text := lower (keyword kw) in
  if String.eqb (keyword_type kw) "regex" then
    match re_search (keyword kw) text with
    | Some found => Ok found
    | None => Raise ReError
    end
  else if String.eqb (keyword_type kw) "not" then
    let parts := split " -" (keyword kw) in
    match parts with
    | [p0; p1] =>
        let main_kw := lower (strip p0) in
        let exclude_kw := lower (strip p1) in
        Ok (contains main_kw text && negb (contains exclude_kw text))
    | _ => Ok (contains kw_text text)
    end
  else if String.eqb (keyword_type kw) "and" then
    Ok (forallb (fun part => contains (lower (strip part)) text)
                (split "+" (keyword kw)))
  else if String.eqb (keyword_type kw) "or" then
    Ok (existsb (fun part => contains (lower (strip part)) text)
                (split "|" (keyword kw)))
  else
    Ok (contains kw_text text).

Definition _match_keyword (title summary : string) (kw : Keyword) : bool :=
  match match_body title summary kw with
  | Ok b => b
  | Raise _ => false   (* except Exception: log, return False *)
  end.

(** One turn of the loop over the rules in [check_entry]; the state is
    [(matched, matched_keywords)]. *)
Definition match_step (title summary : string) (acc : bool * list string) (kw : Keyword)
    : bool * list string :=
  if negb (k_is_active kw) then acc
  else if _match_keyword title summary kw
       then (true, (snd acc ++ [keyword kw])%list)
       else acc.

Definition match_loop (title summary : string) (kws : list Keyword) : bool * list string :=
  fold_left (match_step title summary) kws (false, []).

(** *** src/scheduler.py: the notification *)

Definition hashtag (kw : string) : string :=
  "#" +:+ replace_char " " "_" kw.

Definition render_message (feed : Feed) (entry : PyDict) (matched_keywords : list string)
    : string :=
  let title := dict_get entry "title" (Some "Untitled") in
  let summary := dict_get entry "summary" (Some "") in
  let keywords_str := join " " (map hashtag (take 5 matched_keywords)) in
  let feed_title :=
    match f_title feed with
    | Some t => if nonempty t then t else "Unknown"
    | None => "Unknown"
    end in
  let message := "🔔 <b>关键词匹配</b>" +:+ nl +:+ nl in
  let message := message +:+ "<b>" +:+ fmt title +:+ "</b>" +:+ nl +:+ nl in
  let message := message +:+ "📰 来源: " +:+ feed_title +:+ nl in
  let message :=
    if truthy summary
    then message +:+ nl +:+ slice_to 200 (fmt summary) +:+ "..." +:+ nl
    else message in
  message +:+ nl +:+ keywords_str.

(** One call of the transport, logged with its outcome. *)
Definition bot_call (m : Delivery) : M unit :=
  fun w =>
    if bot_send m then (Ok tt, log_delivery m true w)
    else (Raise TransportError, log_delivery m false w).

Definition notify_admin (image : option string) (message : string) (admin_id : Z) : M unit :=
  try_except
    (if truthy image
     then bot_call {| chat_id := admin_id; photo := image; text := message |}
     else bot_call {| chat_id := admin_id; photo := None; text := message |})
    (fun _ => ret tt).

Definition send_notification (feed : Feed) (entry : PyDict) (matched_keywords : list string)
    : M unit :=
  try_except
    (let image := dict_get entry "image" None in
     let message := render_message feed entry matched_keywords in
     for_each (admin_user_ids config) (notify_admin image message))
    (fun _ => ret tt).

(** *** src/scheduler.py: the checks *)

Definition check_entry (feed : Feed) (entry : PyDict) (keywords : list Keyword) : M unit :=
  let title := dict_get entry "title" (Some "") in
  let summary := dict_get entry "summary" (Some "") in
  let url := dict_get entry "url" (Some "") in
  if negb (truthy url) then ret tt
  else
    let item_hash := compute_hash (f_id feed) (fmt url) in
    sent <- read (fun w => is_sent item_hash (db w)) ;;
    if sent : bool then ret tt
    else
      let '(matched, matched_keywords) := match_loop (fmt title) (fmt summary) keywords in
      if matched : bool then
        send_notification feed entry matched_keywords ;;;
        mark_sent (f_id feed) title (fmt url)
      else ret tt.

Definition check_feed (feed : Feed) (global_keywords : list Keyword) : M unit :=
  try_except
    (feed_keywords <- read (fun w => get_feed_keywords (f_id feed) (db w)) ;;
     let all_keywords := (global_keywords ++ feed_keywords)%list in
     match all_keywords with
     | [] => ret tt
     | _ :: _ =>
         modify (log_fetch (f_url feed)) ;;;
         match fetch_feed (f_url feed) with
         | (true, Some feed_data, _) =>
             now <- read clock ;;
             modify_db (update_feed (f_id feed)
                          {| p_title := Some (Some (fi_title feed_data));
                             p_description := Some (Some (fi_description feed_data));
                             p_last_fetch := Some (Some now);
                             p_error_count := Some 0%Z;
                             p_is_active := None |}) ;;;
             for_each (fi_entries feed_data)
                      (fun entry => check_entry feed entry all_keywords)
         | _ =>
             modify_db (increment_error (f_id feed))
         end
     end)
    (fun _ => modify_db (increment_error (f_id feed))).

(** The [try] block of [check_all_feeds]. *)
Definition sweep : M unit :=
  feeds <- read (fun w => get_active_feeds (db w)) ;;
  global_keywords <- read (fun w => get_global_keywords (db w)) ;;
  for_each feeds (fun feed => check_feed feed global_keywords).

(** The guard, the [except] and the [finally] of [check_all_feeds] around a
    [try] block. *)
Definition guarded (body : M unit) : M unit :=
  fun w =>
    if is_running w then (Ok tt, w)
    else
      (modify (set_running true) ;;;
       try_finally
         (try_except body (fun _ => ret tt))
         (modify (set_running false) ;;;
          now <- read clock ;;
          modify_db (clean_old_sent_items now (history_days config)))) w.

Definition check_all_feeds : M unit := guarded sweep.


(** *** The spec's reading of the [not] kind, and the code's *)

(** The matching of a [not] rule in the spec's words: split on the first
    [" -"]; two non-empty parts give main and exclude, anything else is a
    plain match on the whole pattern. *)
Definition not_rule_as_claimed (pattern text : string) : bool :=
  match partition " -" pattern with
  | Some (main, exclude) =>
      if nonempty main && nonempty exclude
      then contains (lower (strip main)) text
           && negb (contains (lower (strip exclude)) text)
      else contains (lower pattern) text
  | None => contains (lower pattern) text
  end.

(** The matching of a [not] rule as the code has it, told by occurrences:
    main and exclude exist when [" -"] occurs exactly once, and either may be
    empty. *)
Definition not_rule_by_design (pattern text : string) : bool :=
  match partition " -" pattern with
  | Some (main, exclude) =>
      if contains " -" exclude
      then contains (lower pattern) text
      else contains (lower (strip main)) text
           && negb (contains (lower (strip exclude)) text)
  | None => contains (lower pattern) text
  end.

(** The kind and pattern the spec derives from a raw rule. *)
Definition derive_as_claimed (raw : string) : string * string :=
  if startswith raw "regex:" then (slice_from 6 raw, "regex")
  else if startswith raw "+" then (slice_from 1 raw, "and")
  else if startswith raw "|" then (slice_from 1 raw, "or")
  else if contains " -" raw then (raw, "not")
  else (raw, "normal").

(** ** Vocabulary of the statements *)

Definition has_title (entry : RawEntry) : bool :=
  nonempty (strip (default "Untitled" (r_title entry))).

Definition link_of (entry : RawEntry) : string :=
  if nonempty (first_html_link (r_links entry))
  then first_html_link (r_links entry)
  else default "" (r_link entry).

(** The message one recipient is sent. *)
Definition delivery_for (image : option string) (message : string) (admin_id : Z) : Delivery :=
  if truthy image
  then {| chat_id := admin_id; photo := image; text := message |}
  else {| chat_id := admin_id; photo := None; text := message |}.

(** The attempts one notification makes: one per configured recipient, in
    the order of the list, each with the outcome of the transport. *)
Definition attempts (feed : Feed) (entry : PyDict) (matched_keywords : list string)
    : list (Delivery * bool) :=
  map (fun admin_id =>
         let m := delivery_for (dict_get entry "image" None)
                               (render_message feed entry matched_keywords) admin_id in
         (m, bot_send m))
      (admin_user_ids config).

Definition log_deliveries (l : list (Delivery * bool)) (w : World) : World :=
  {| db := db w; is_running := is_running w;
     deliveries := deliveries w ++ l;
     fetched := fetched w; clock := clock w |}.

Definition records_of (h : string) (d : Database) : list SentItem :=
  List.filter (fun item => String.eqb (item_hash item) h) (sent_items d).

(** The unique index of [sent_items.item_hash]. *)
Definition unique_hashes (d : Database) : Prop :=
  NoDup (map item_hash (sent_items d)).

Definition entry_url (entry : PyDict) : option string := dict_get entry "url" (Some "").
Definition entry_title (entry : PyDict) : string := fmt (dict_get entry "title" (Some "")).
Definition entry_summary (entry : PyDict) : string := fmt (dict_get entry "summary" (Some "")).

Definition entry_hash (feed : Feed) (entry : PyDict) : string :=
  compute_hash (f_id feed) (fmt (entry_url entry)).

(** What one entry can change: the dedup records and the delivery log. *)
Definition entry_frame (w w' : World) : Prop :=
  feeds (db w') = feeds (db w) /\
  keywords (db w') = keywords (db w) /\
  is_running w' = is_running w /\
  fetched w' = fetched w /\
  clock w' = clock w.

(** The flag of the row a feed id selects, when there is one. *)
Definition active_flag (fid : Z) (d : Database) : option bool :=
  f_is_active <$> get_feed_by_id fid d.

(** No feed that is switched off in [d] is switched on in [d']. *)
Definition one_way (d d' : Database) : Prop :=
  forall fid, active_flag fid d = Some false -> active_flag fid d' = Some false.

Definition applicable (feed : Feed) (global_keywords : list Keyword) (d : Database)
    : list Keyword :=
  (global_keywords ++ get_feed_keywords (f_id feed) d)%list.

(** The assignments a successful fetch makes. *)
Definition success_patch (feed_data : FeedInfo) (now : Z) : FeedPatch :=
  {| p_title := Some (Some (fi_title feed_data));
     p_description := Some (Some (fi_description feed_data));
     p_last_fetch := Some (Some now);
     p_error_count := Some 0%Z;
     p_is_active := None |}.

(** What one feed check can change. *)
Definition feed_frame (w w' : World) : Prop :=
  is_running w' = is_running w /\
  clock w' = clock w /\
  keywords (db w') = keywords (db w) /\
  one_way (db w) (db w').

(** [n] checks of one feed in a row. *)
Definition checks (n : nat) (feed : Feed) (gk : list Keyword) (w : World) : World :=
  Nat.iter n (fun w0 => snd (check_feed feed gk w0)) w.

Definition no_url (item : PyDict) : Prop := item !! "url" = None.

(** Whether a feed has a rule to be checked against: a global one or one of
    its own, active or not. *)
Definition has_rules (feed : Feed) (global_keywords : list Keyword) (d : Database) : bool :=
  match applicable feed global_keywords d with
  | [] => false
  | _ :: _ => true
  end.

(** ** Facts about the string primitives *)

Lemma append_cons (c : ascii) (s t : string) :
  String c s +:+ t = String c (s +:+ t).
Proof. reflexivity. Qed.

Lemma append_empty_l (s : string) : "" +:+ s = s.
Proof. reflexivity. Qed.

Lemma append_empty_r (s : string) : s +:+ "" = s.
Proof.
  induction s as [|c s IH]; [reflexivity|].
  by rewrite append_cons, IH.
Qed.

Lemma append_assoc (a b c : string) : (a +:+ b) +:+ c = a +:+ (b +:+ c).
Proof.
  induction a as [|x a IH]; [reflexivity|].
  by rewrite !append_cons, IH.
Qed.

Lemma split_go_nonempty (sep s : string) (k : nat) (cur : string) :
  split_go sep s k cur <> [].
Proof.
  revert k cur. induction s as [|c s IH]; intros k cur; cbn [split_go]; [done|].
  destruct k as [|k]; [|apply IH].
  destruct (String.prefix sep (String c s)); [done | apply IH].
Qed.

Lemma partition_None_contains (sep s : string) :
  partition sep s = None <-> contains sep s = false.
Proof.
  induction s as [|c s IH]; cbn [partition contains].
  - destruct (String.prefix sep ""); simpl; split; congruence.
  - destruct (String.prefix sep (String c s)); simpl; [split; congruence|].
    rewrite <- IH. destruct (partition sep s) as [[a b]|]; split; congruence.
Qed.

(** Splitting on [" -"] cuts at the first occurrence and goes on with what
    follows it. *)
Lemma split_go_partition (s cur : string) :
  split_go " -" s 0 cur =
  match partition " -" s with
  | Some (a, b) => (cur +:+ a) :: split_go " -" b 0 ""
  | None => [cur +:+ s]
  end.
Proof.
  revert cur. induction s as [|c s IH]; intros cur.
  - cbn. by rewrite append_empty_r.
  - cbn [split_go partition].
    destruct (String.prefix " -" (String c s)) eqn:Hp.
    + rewrite append_empty_r. f_equal.
      cbn [String.prefix] in Hp.
      destruct (ascii_dec " " c) as [<-|]; [|done].
      destruct s as [|c' s]; [done|].
      cbn [String.prefix] in Hp.
      destruct (ascii_dec "-" c') as [<-|]; [|done].
      reflexivity.
    + rewrite IH. destruct (partition " -" s) as [[a b]|].
      * by rewrite append_assoc, append_cons, append_empty_l.
      * by rewrite append_assoc, append_cons, append_empty_l.
Qed.

Lemma split_partition (s : string) :
  split " -" s =
  match partition " -" s with
  | Some (a, b) => a :: split " -" b
  | None => [s]
  end.
Proof. unfold split. by rewrite split_go_partition. Qed.

(** ** The admin check *)

(** C10: with an empty admin list [is_admin] accepts every user id; with a
    non-empty list it accepts exactly the ids in the list. *)
Theorem is_admin_open_or_listed (cfg : Config) (user_id : Z) :
  is_admin cfg user_id = true <->
  admin_user_ids cfg = [] \/ user_id ∈ admin_user_ids cfg.
Proof.
  unfold is_admin, is_admin_mode.
  destruct (admin_user_ids cfg) as [|a l] eqn:E; cbn [length Nat.ltb Nat.leb negb].
  - split; [by left | done].
  - rewrite bool_decide_eq_true. split; [by right | by intros [?|?]].
Qed.

(** ** The matcher *)

Lemma match_step_inactive (title summary : string) (acc : bool * list string) (kw : Keyword) :
  k_is_active kw = false -> match_step title summary acc kw = acc.
Proof. unfold match_step. by intros ->. Qed.

Lemma match_step_no_match (title summary : string) (acc : bool * list string) (kw : Keyword) :
  _match_keyword title summary kw = false -> match_step title summary acc kw = acc.
Proof. unfold match_step. intros ->. by destruct (k_is_active kw). Qed.

Lemma match_step_match (title summary : string) (acc : bool * list string) (kw : Keyword) :
  k_is_active kw = true ->
  _match_keyword title summary kw = true ->
  match_step title summary acc kw = (true, (snd acc ++ [keyword kw])%list).
Proof. unfold match_step. by intros -> ->. Qed.

(** The loop collects, in rule order, the patterns of the active rules that
    match. *)
Lemma match_loop_from (title summary : string) (kws : list Keyword) (acc : bool * list string) :
  let hit kw := k_is_active kw && _match_keyword title summary kw in
  fold_left (match_step title summary) kws acc =
  (fst acc || existsb hit kws, (snd acc ++ map keyword (List.filter hit kws))%list).
Proof.
  cbv zeta. revert acc. induction kws as [|kw kws IH]; intros [m l]; cbn [fold_left].
  - cbn. by rewrite orb_false_r, app_nil_r.
  - rewrite IH. unfold match_step. cbn [existsb List.filter fst snd].
    destruct (k_is_active kw); cbn [negb andb orb]; [|done].
    destruct (_match_keyword title summary kw); cbn [orb fst snd map].
    + by rewrite orb_true_r, <- app_assoc.
    + done.
Qed.

Lemma match_loop_filter (title summary : string) (kws : list Keyword) :
  let hit kw := k_is_active kw && _match_keyword title summary kw in
  match_loop title summary kws = (existsb hit kws, map keyword (List.filter hit kws)).
Proof. cbv zeta. unfold match_loop. by rewrite match_loop_from. Qed.

(** C4 (amended): a [not] rule whose pattern holds [" -"] exactly once
    matches iff the trimmed, lowercased part before it is contained in the
    lowercased "title summary" text and the part after it is not; a part may
    be empty. With no [" -"] or more than one, the rule is a plain match of
    the whole lowercased pattern. *)
Theorem not_rule_matches_by_design (title summary : string) (kw : Keyword) :
  keyword_type kw = "not" ->
  _match_keyword title summary kw =
  not_rule_by_design (keyword kw) (lower (title +:+ " " +:+ summary)).
Proof.
  intros Hk. unfold _match_keyword, match_body, not_rule_by_design.
  rewrite Hk. cbn [String.eqb Ascii.eqb Bool.eqb].
  rewrite split_partition.
  destruct (partition " -" (keyword kw)) as [[a b]|]; [|done].
  rewrite split_partition.
  destruct (contains " -" b) eqn:Hb.
  - destruct (partition " -" b) as [[a' b']|] eqn:Hpb.
    + rewrite split_partition.
      by destruct (partition " -" b') as [[a'' b'']|].
    + apply partition_None_contains in Hpb. congruence.
  - apply partition_None_contains in Hb. by rewrite Hb.
Qed.

(** C5: a regex rule whose pattern fails to compile or to evaluate is a
    non-match, nothing is raised out of the matcher, and the loop over the
    rules goes on as if the rule were not there: a valid rule after it still
    runs and matches. *)
Theorem bad_regex_is_a_non_match (title summary : string) (kw : Keyword)
    (pre post : list Keyword) :
  keyword_type kw = "regex" ->
  re_search (keyword kw) (lower (title +:+ " " +:+ summary)) = None ->
  match_body title summary kw = Raise ReError /\
  _match_keyword title summary kw = false /\
  match_loop title summary (pre ++ kw :: post) = match_loop title summary (pre ++ post) /\
  (forall good : Keyword,
     k_is_active good = true ->
     _match_keyword title summary good = true ->
     match_loop title summary [kw; good] = (true, [keyword good])).
Proof.
  intros Hk Hre.
  assert (Hbody : match_body title summary kw = Raise ReError).
  { unfold match_body. rewrite Hk. cbn [String.eqb Ascii.eqb Bool.eqb]. by rewrite Hre. }
  assert (Hm : _match_keyword title summary kw = false).
  { unfold _match_keyword. by rewrite Hbody. }
  repeat split; [done | done | |].
  - unfold match_loop. rewrite !fold_left_app. cbn [fold_left].
    by rewrite (match_step_no_match _ _ _ _ Hm).
  - intros good Ha Hg. unfold match_loop. cbn [fold_left].
    rewrite (match_step_no_match _ _ _ _ Hm).
    by rewrite (match_step_match _ _ _ _ Ha Hg).
Qed.

(** ** The parser *)

Lemma nonempty_true (s : string) : nonempty s = true <-> s <> "".
Proof. destruct s; cbn; split; congruence. Qed.

Lemma _parse_entry_None (entry : RawEntry) :
  _parse_entry entry = None <-> has_title entry = false.
Proof.
  unfold _parse_entry, has_title.
  destruct (nonempty (strip (default "Untitled" (r_title entry)))); cbn; split; congruence.
Qed.

Lemma _parse_entry_Some (entry : RawEntry) (item : PyDict) :
  _parse_entry entry = Some item ->
  has_title entry = true /\
  item !! "title" = Some (Some (strip (default "Untitled" (r_title entry)))) /\
  item !! "link" = Some (Some (link_of entry)) /\
  item !! "url" = None.
Proof.
  unfold _parse_entry, has_title, link_of.
  destruct (nonempty (strip (default "Untitled" (r_title entry)))); cbn [negb]; [|done].
  intros [= <-]. split; [done|].
  destruct (nonempty (first_html_link (r_links entry))); cbn [negb];
    by simplify_map_eq.
Qed.

(** The entries kept are the parses of the raw entries that have a title,
    in their order. *)
Lemma parse_entries_kept (entries : list RawEntry) :
  Forall2 (fun raw item => _parse_entry raw = Some item)
          (List.filter has_title entries) (parse_entries entries).
Proof.
  induction entries as [|raw entries IH]; cbn [List.filter parse_entries]; [constructor|].
  destruct (_parse_entry raw) as [item|] eqn:E.
  - destruct (_parse_entry_Some _ _ E) as [-> _]. by constructor.
  - apply _parse_entry_None in E. by rewrite E.
Qed.

Lemma filter_length_le {A : Type} (f : A -> bool) (l : list A) :
  (length (List.filter f l) <= length l)%nat.
Proof.
  induction l as [|x l IH]; cbn [List.filter length]; [lia|].
  destruct (f x); cbn [length]; lia.
Qed.

(** C8 (amended): a successful fetch returns, in document order, one
    normalised entry for each of the first 50 raw entries whose trimmed title
    is not empty, so at most 50; each has that non-empty title, and as link
    the first HTML-typed link relation when it is not empty, else the generic
    link field, else the empty string: an entry without any link is kept. *)
Theorem fetch_feed_entries (url : string) (feed_data : FeedInfo) (err : option string) :
  fetch_feed url = (true, Some feed_data, err) ->
  exists doc : ParsedFeed,
    http_get url = Parsed doc /\
    (length (fi_entries feed_data) <= 50)%nat /\
    Forall2
      (fun raw item =>
         item !! "title" = Some (Some (strip (default "Untitled" (r_title raw)))) /\
         strip (default "Untitled" (r_title raw)) <> "" /\
         item !! "link" = Some (Some (link_of raw)))
      (List.filter has_title (take 50 (pf_entries doc)))
      (fi_entries feed_data).
Proof.
  unfold fetch_feed. destruct (http_get url) as [| | |doc]; try done.
  destruct (bozo doc && negb (0 <? length (pf_entries doc))%nat); [done|].
  intros [= <- <-]. exists doc. cbn [fi_entries].
  pose proof (parse_entries_kept (take 50 (pf_entries doc))) as Hk.
  split; [done|]. split.
  - rewrite <- (Forall2_length _ _ _ Hk).
    etrans; [apply filter_length_le|]. rewrite length_take. lia.
  - eapply Forall2_impl; [exact Hk|].
    intros raw item E. destruct (_parse_entry_Some _ _ E) as (Ht & ? & ? & _).
    repeat split; [done| |done]. by apply nonempty_true.
Qed.

(** ** Notifications *)

Lemma log_deliveries_nil (w : World) : log_deliveries [] w = w.
Proof. destruct w. unfold log_deliveries. cbn. by rewrite app_nil_r. Qed.

Lemma log_deliveries_cons (m : Delivery) (ok : bool) (l : list (Delivery * bool)) (w : World) :
  log_deliveries l (log_delivery m ok w) = log_deliveries ((m, ok) :: l) w.
Proof. unfold log_deliveries, log_delivery. cbn. by rewrite <- app_assoc. Qed.

Lemma notify_admin_run (image : option string) (message : string) (admin_id : Z) (w : World) :
  notify_admin image message admin_id w =
  (Ok tt, log_delivery (delivery_for image message admin_id)
                       (bot_send (delivery_for image message admin_id)) w).
Proof.
  unfold notify_admin, delivery_for, try_except, bot_call, ret.
  destruct (truthy image);
    match goal with |- context [bot_send ?m] => by destruct (bot_send m) end.
Qed.

Lemma notify_all_run (image : option string) (message : string) (admins : list Z) (w : World) :
  for_each admins (notify_admin image message) w =
  (Ok tt,
   log_deliveries
     (map (fun a => (delivery_for image message a, bot_send (delivery_for image message a)))
          admins) w).
Proof.
  revert w. induction admins as [|a admins IH]; intros w; cbn [for_each map].
  - unfold ret. by rewrite log_deliveries_nil.
  - unfold bind. by rewrite notify_admin_run, IH, log_deliveries_cons.
Qed.

(** A notification never raises: it attempts every recipient, whatever the
    transport does, and changes nothing else. *)
Lemma send_notification_run (feed : Feed) (entry : PyDict) (mk : list string) (w : World) :
  send_notification feed entry mk w = (Ok tt, log_deliveries (attempts feed entry mk) w).
Proof. unfold send_notification, try_except. by rewrite notify_all_run. Qed.

(** ** The dedup store *)

Lemma is_sent_records (h : string) (d : Database) :
  is_sent h d = false <-> records_of h d = [].
Proof.
  unfold is_sent, records_of. induction (sent_items d) as [|x l IH]; cbn; [done|].
  destruct (String.eqb (item_hash x) h); cbn; [split; congruence | exact IH].
Qed.

Lemma is_sent_elem_of (h : string) (d : Database) :
  is_sent h d = true <-> h ∈ map item_hash (sent_items d).
Proof.
  unfold is_sent. induction (sent_items d) as [|x l IH]; cbn.
  - split; [done | by intros ?%elem_of_nil].
  - rewrite elem_of_cons, orb_true_iff, IH, String.eqb_eq.
    split; (intros [E|E]; [left; by symmetry | by right]).
Qed.

Lemma records_of_unique (h : string) (d : Database) :
  unique_hashes d -> is_sent h d = true -> length (records_of h d) = 1%nat.
Proof.
  unfold unique_hashes, records_of, is_sent.
  induction (sent_items d) as [|x l IH]; cbn [map existsb List.filter]; [done|].
  intros [Hx Hl]%NoDup_cons Hs.
  destruct (String.eqb_spec (item_hash x) h) as [Hh|Hne]; cbn [orb] in *.
  - cbn [length]. f_equal. rewrite Hh in Hx.
    assert (E : existsb (fun item => String.eqb (item_hash item) h) l = false).
    { apply not_true_is_false. intros E. apply Hx.
      by apply (is_sent_elem_of h (mkDatabase [] [] l)). }
    apply (is_sent_records h (mkDatabase [] [] l)) in E.
    unfold records_of in E. cbn [sent_items] in E. by rewrite E.
  - by apply IH.
Qed.

Lemma mark_sent_fresh (feed_id : Z) (title : option string) (url : string) (w : World) :
  is_sent (compute_hash feed_id url) (db w) = false ->
  mark_sent feed_id title url w =
  (Ok tt,
   set_db (with_sent_items (db w)
             (sent_items (db w) ++
              [{| item_hash := compute_hash feed_id url; s_feed_id := feed_id;
                  s_title := title; s_url := url; sent_at := clock w |}])) w).
Proof.
  intros H. unfold mark_sent, mark_sent_db, insert_sent_item. cbn [item_hash].
  by rewrite H.
Qed.

Lemma mark_sent_again (feed_id : Z) (title : option string) (url : string) (w : World) :
  is_sent (compute_hash feed_id url) (db w) = true ->
  mark_sent feed_id title url w = (Raise IntegrityError, w).
Proof.
  intros H. unfold mark_sent, mark_sent_db, insert_sent_item. cbn [item_hash].
  by rewrite H.
Qed.

Lemma mark_sent_is_sent (feed_id : Z) (title : option string) (url : string) (w : World) :
  is_sent (compute_hash feed_id url) (db (snd (mark_sent feed_id title url w))) = true.
Proof.
  destruct (is_sent (compute_hash feed_id url) (db w)) eqn:H.
  - by rewrite mark_sent_again.
  - rewrite mark_sent_fresh by done. cbn.
    unfold is_sent. cbn. rewrite existsb_app. cbn.
    by rewrite String.eqb_refl, orb_true_r.
Qed.

Lemma mark_sent_unique (feed_id : Z) (title : option string) (url : string) (w : World) :
  unique_hashes (db w) -> unique_hashes (db (snd (mark_sent feed_id title url w))).
Proof.
  intros Hu. destruct (is_sent (compute_hash feed_id url) (db w)) eqn:H.
  - by rewrite mark_sent_again.
  - rewrite mark_sent_fresh by done. unfold unique_hashes in *. cbn.
    rewrite map_app. cbn. apply NoDup_app. split; [done|]. split.
    + intros h Hin ->%list_elem_of_singleton.
      apply (is_sent_elem_of _ (db w)) in Hin. congruence.
    + apply NoDup_singleton.
Qed.

(** ** Checking one entry *)

Lemma check_entry_no_url (feed : Feed) (entry : PyDict) (kws : list Keyword) (w : World) :
  truthy (entry_url entry) = false -> check_entry feed entry kws w = (Ok tt, w).
Proof. unfold check_entry, entry_url. by intros ->. Qed.

Lemma check_entry_sent (feed : Feed) (entry : PyDict) (kws : list Keyword) (w : World) :
  is_sent (entry_hash feed entry) (db w) = true -> check_entry feed entry kws w = (Ok tt, w).
Proof.
  unfold check_entry, entry_hash, entry_url. intros H.
  destruct (truthy (dict_get entry "url" (Some ""))); cbn [negb]; [|done].
  unfold bind, read, ret. by rewrite H.
Qed.

Lemma check_entry_no_match (feed : Feed) (entry : PyDict) (kws : list Keyword) (w : World) :
  fst (match_loop (entry_title entry) (entry_summary entry) kws) = false ->
  check_entry feed entry kws w = (Ok tt, w).
Proof.
  unfold check_entry, entry_title, entry_summary. intros H.
  destruct (truthy (dict_get entry "url" (Some ""))); cbn [negb]; [|done].
  unfold bind, read, ret.
  destruct (is_sent _ (db w)); [done|].
  destruct (match_loop _ _ kws) as [m mk]. cbn in H. by rewrite H.
Qed.

Lemma check_entry_match (feed : Feed) (entry : PyDict) (kws : list Keyword) (w : World) :
  truthy (entry_url entry) = true ->
  is_sent (entry_hash feed entry) (db w) = false ->
  fst (match_loop (entry_title entry) (entry_summary entry) kws) = true ->
  check_entry feed entry kws w =
  mark_sent (f_id feed) (dict_get entry "title" (Some "")) (fmt (entry_url entry))
    (snd (send_notification feed entry
            (snd (match_loop (entry_title entry) (entry_summary entry) kws)) w)).
Proof.
  unfold check_entry, entry_hash, entry_title, entry_summary, entry_url.
  intros -> Hs Hm. cbn [negb]. unfold bind at 1. unfold read at 1. rewrite Hs.
  destruct (match_loop _ _ kws) as [m mk]. cbn in Hm. subst m. cbn [snd].
  unfold bind. by rewrite send_notification_run.
Qed.

Lemma entry_frame_refl (w : World) : entry_frame w w.
Proof. by unfold entry_frame. Qed.

Lemma entry_frame_trans (w1 w2 w3 : World) :
  entry_frame w1 w2 -> entry_frame w2 w3 -> entry_frame w1 w3.
Proof. unfold entry_frame. intuition congruence. Qed.

(** Checking an entry never raises. *)
Lemma check_entry_ok (feed : Feed) (entry : PyDict) (kws : list Keyword) (w : World) :
  exists w', check_entry feed entry kws w = (Ok tt, w') /\ entry_frame w w'.
Proof.
  destruct (truthy (entry_url entry)) eqn:Hu;
    [|exists w; by rewrite check_entry_no_url].
  destruct (is_sent (entry_hash feed entry) (db w)) eqn:Hs;
    [exists w; by rewrite check_entry_sent|].
  destruct (fst (match_loop (entry_title entry) (entry_summary entry) kws)) eqn:Hm;
    [|exists w; by rewrite check_entry_no_match].
  rewrite check_entry_match by done. rewrite send_notification_run. cbn [snd].
  rewrite mark_sent_fresh by done. eexists; split; [done|]. by unfold entry_frame.
Qed.

Lemma check_entries_ok (feed : Feed) (entries : list PyDict) (kws : list Keyword) (w : World) :
  exists w',
    for_each entries (fun entry => check_entry feed entry kws) w = (Ok tt, w') /\
    entry_frame w w'.
Proof.
  revert w. induction entries as [|entry entries IH]; intros w; cbn [for_each].
  - exists w. by split; [|apply entry_frame_refl].
  - destruct (check_entry_ok feed entry kws w) as (w1 & E1 & F1).
    destruct (IH w1) as (w2 & E2 & F2).
    exists w2. unfold bind. rewrite E1. split; [done|]. by eapply entry_frame_trans.
Qed.

(** C6: when a rule matched an entry, every configured recipient is
    attempted first and the fingerprint is recorded next, whatever the
    transport answered: also when every delivery failed. *)
Theorem matched_entry_is_marked_sent (feed : Feed) (entry : PyDict)
    (kws : list Keyword) (w : World) :
  truthy (entry_url entry) = true ->
  is_sent (entry_hash feed entry) (db w) = false ->
  fst (match_loop (entry_title entry) (entry_summary entry) kws) = true ->
  let mk := snd (match_loop (entry_title entry) (entry_summary entry) kws) in
  let notified := snd (send_notification feed entry mk w) in
  let checked := check_entry feed entry kws w in
  checked = mark_sent (f_id feed) (dict_get entry "title" (Some ""))
              (fmt (entry_url entry)) notified /\
  fst checked = Ok tt /\
  deliveries notified = (deliveries w ++ attempts feed entry mk)%list /\
  map (fun a => chat_id (fst a)) (attempts feed entry mk) = admin_user_ids config /\
  deliveries (snd checked) = deliveries notified /\
  is_sent (entry_hash feed entry) (db (snd checked)) = true.
Proof.
  intros Hu Hs Hm mk notified checked. subst checked.
  rewrite check_entry_match by done. fold mk. fold notified.
  subst notified. rewrite send_notification_run. cbn [snd].
  split; [done|].
  rewrite mark_sent_fresh by done. cbn [fst snd].
  repeat split.
  - unfold attempts. rewrite map_map.
    induction (admin_user_ids config) as [|a l IH]; [done|].
    cbn [map]. rewrite IH. f_equal. unfold delivery_for.
    by destruct (truthy (dict_get entry "image" None)).
  - unfold is_sent. cbn. rewrite existsb_app. cbn.
    unfold entry_hash. by rewrite String.eqb_refl, orb_true_r.
Qed.

(** C7: marking the same (feed id, url) twice leaves exactly one record with
    that fingerprint, the second insert being refused by the unique index;
    and an entry whose fingerprint is recorded is skipped: nothing is
    delivered and nothing changes. *)
Theorem mark_sent_twice_one_record (feed_id : Z) (title1 title2 : option string)
    (url : string) (w : World) :
  unique_hashes (db w) ->
  let w1 := snd (mark_sent feed_id title1 url w) in
  let second := mark_sent feed_id title2 url w1 in
  second = (Raise IntegrityError, w1) /\
  length (records_of (compute_hash feed_id url) (db (snd second))) = 1%nat /\
  unique_hashes (db (snd second)) /\
  (forall (feed : Feed) (entry : PyDict) (kws : list Keyword) (w' : World),
     is_sent (entry_hash feed entry) (db w') = true ->
     check_entry feed entry kws w' = (Ok tt, w')).
Proof.
  intros Hu w1 second.
  assert (Hs : is_sent (compute_hash feed_id url) (db w1) = true)
    by apply mark_sent_is_sent.
  assert (Hu1 : unique_hashes (db w1)) by by apply mark_sent_unique.
  assert (E : second = (Raise IntegrityError, w1)) by by apply mark_sent_again.
  rewrite E. cbn [snd]. repeat split; [|done|].
  - by apply records_of_unique.
  - intros feed entry kws w'. apply check_entry_sent.
Qed.

(** ** Feed rows *)

Lemma find_on_first_feed (fid fid' : Z) (g : Feed -> Feed) (rows : list Feed) :
  (forall r, f_id (g r) = f_id r) ->
  List.find (fun feed => (f_id feed =? fid)%Z) (on_first_feed fid' g rows) =
  (fun r => if (fid =? fid')%Z then g r else r)
    <$> List.find (fun feed => (f_id feed =? fid)%Z) rows.
Proof.
  intros Hg. induction rows as [|row rows IH]; cbn [on_first_feed List.find]; [done|].
  destruct (Z.eqb_spec (f_id row) fid') as [E'|N'].
  - cbn [List.find]. rewrite Hg.
    destruct (Z.eqb_spec (f_id row) fid) as [E|N]; cbn.
    + rewrite <- E, <- E', Z.eqb_refl. done.
    + destruct (Z.eqb_spec fid fid') as [E|_]; [congruence|].
      by destruct (List.find _ rows).
  - cbn [List.find].
    destruct (Z.eqb_spec (f_id row) fid) as [E|N]; cbn.
    + destruct (Z.eqb_spec fid fid') as [E2|_]; [congruence | done].
    + exact IH.
Qed.

Lemma bump_error_id (r : Feed) : f_id (bump_error r) = f_id r.
Proof. done. Qed.

Lemma setattrs_id (kwargs : FeedPatch) (r : Feed) : f_id (setattrs kwargs r) = f_id r.
Proof. done. Qed.

Lemma get_feed_increment_error (fid : Z) (d : Database) :
  get_feed_by_id fid (increment_error fid d) = bump_error <$> get_feed_by_id fid d.
Proof.
  unfold get_feed_by_id, increment_error. cbn [feeds with_feeds].
  rewrite find_on_first_feed by apply bump_error_id. by rewrite Z.eqb_refl.
Qed.

Lemma get_feed_update_feed (fid : Z) (kwargs : FeedPatch) (d : Database) :
  get_feed_by_id fid (update_feed fid kwargs d) = setattrs kwargs <$> get_feed_by_id fid d.
Proof.
  unfold get_feed_by_id, update_feed. cbn [feeds with_feeds].
  rewrite find_on_first_feed by apply setattrs_id. by rewrite Z.eqb_refl.
Qed.

Lemma bump_iter_count (n : nat) (row : Feed) :
  f_error_count (Nat.iter n bump_error row) = (f_error_count row + Z.of_nat n)%Z.
Proof.
  induction n as [|n IH]; [cbn; lia|].
  rewrite Nat.iter_succ. cbn [bump_error f_error_count]. rewrite IH. lia.
Qed.

Lemma bump_iter_active (n : nat) (row : Feed) :
  f_error_count row = 0%Z ->
  f_is_active (Nat.iter n bump_error row) =
  if (n <? 10)%nat then f_is_active row else false.
Proof.
  intros H0. induction n as [|n IH]; [done|].
  rewrite Nat.iter_succ. cbn [bump_error f_is_active].
  rewrite bump_iter_count, H0, IH.
  destruct (Z.leb_spec 10 (0 + Z.of_nat n + 1));
    destruct (Nat.ltb_spec (S n) 10); destruct (Nat.ltb_spec n 10); try done; lia.
Qed.

Lemma one_way_refl (d : Database) : one_way d d.
Proof. by intros fid. Qed.

Lemma one_way_trans (d1 d2 d3 : Database) : one_way d1 d2 -> one_way d2 d3 -> one_way d1 d3.
Proof. intros H12 H23 fid H. by apply H23, H12. Qed.

Lemma one_way_same_feeds (d d' : Database) : feeds d' = feeds d -> one_way d d'.
Proof. intros E fid. unfold active_flag, get_feed_by_id. by rewrite E. Qed.

Lemma one_way_on_first (fid' : Z) (g : Feed -> Feed) (d : Database) :
  (forall r, f_id (g r) = f_id r) ->
  (forall r, f_is_active r = false -> f_is_active (g r) = false) ->
  one_way d (with_feeds d (on_first_feed fid' g (feeds d))).
Proof.
  intros Hid Hg fid. unfold active_flag, get_feed_by_id. cbn [feeds with_feeds].
  rewrite find_on_first_feed by done.
  destruct (List.find _ (feeds d)) as [r|]; cbn; [|done].
  intros [= Hr]. f_equal. destruct (fid =? fid')%Z; [by apply Hg | done].
Qed.

Lemma one_way_increment_error (fid : Z) (d : Database) : one_way d (increment_error fid d).
Proof.
  apply one_way_on_first; [done|]. intros r Hr. cbn. rewrite Hr.
  by destruct (10 <=? f_error_count r + 1)%Z.
Qed.

Lemma one_way_update_feed (fid : Z) (kwargs : FeedPatch) (d : Database) :
  p_is_active kwargs = None -> one_way d (update_feed fid kwargs d).
Proof.
  intros Hp. apply one_way_on_first; [done|]. intros r Hr. cbn. by rewrite Hp.
Qed.

(** ** Checking one feed *)

Lemma fetch_feed_shape (url : string) :
  (exists feed_data, fetch_feed url = (true, Some feed_data, None)) \/
  (exists msg, fetch_feed url = (false, None, Some msg)).
Proof.
  unfold fetch_feed. destruct (http_get url) as [|code|msg|doc]; eauto.
  destruct (bozo doc && negb (0 <? length (pf_entries doc))%nat); eauto.
Qed.

Lemma check_feed_skipped (feed : Feed) (gk : list Keyword) (w : World) :
  applicable feed gk (db w) = [] -> check_feed feed gk w = (Ok tt, w).
Proof.
  unfold applicable, check_feed, try_except, bind, read. by intros ->.
Qed.

Lemma check_feed_failure (feed : Feed) (gk : list Keyword) (w : World) :
  applicable feed gk (db w) <> [] ->
  fst (fst (fetch_feed (f_url feed))) = false ->
  check_feed feed gk w =
  (Ok tt, set_db (increment_error (f_id feed) (db w)) (log_fetch (f_url feed) w)).
Proof.
  unfold applicable, check_feed, try_except, bind, read. intros Hk Hf.
  destruct (gk ++ get_feed_keywords (f_id feed) (db w))%list; [done|].
  unfold modify at 1.
  destruct (fetch_feed_shape (f_url feed)) as [[fd E]|[msg E]]; rewrite E in *; [done|].
  done.
Qed.

Lemma check_feed_success (feed : Feed) (gk : list Keyword) (w : World)
    (feed_data : FeedInfo) (err : option string) :
  applicable feed gk (db w) <> [] ->
  fetch_feed (f_url feed) = (true, Some feed_data, err) ->
  exists w',
    check_feed feed gk w = (Ok tt, w') /\
    entry_frame
      (set_db (update_feed (f_id feed) (success_patch feed_data (clock w)) (db w))
              (log_fetch (f_url feed) w)) w'.
Proof.
  unfold applicable, check_feed, try_except, bind, read. intros Hk E.
  destruct (gk ++ get_feed_keywords (f_id feed) (db w))%list as [|k ks] eqn:Ek; [done|].
  unfold modify at 1. rewrite E. unfold modify_db, modify. cbn [clock log_fetch].
  match goal with
  | |- context [for_each ?es ?f ?w0] =>
      destruct (check_entries_ok feed es (k :: ks) w0) as (w' & Er & F)
  end.
  exists w'. split; [|exact F].
  unfold success_patch. cbn in Er |- *. by rewrite Er.
Qed.

Lemma feed_frame_refl (w : World) : feed_frame w w.
Proof. unfold feed_frame. repeat split. apply one_way_refl. Qed.

Lemma feed_frame_trans (w1 w2 w3 : World) :
  feed_frame w1 w2 -> feed_frame w2 w3 -> feed_frame w1 w3.
Proof.
  unfold feed_frame. intros (?&?&?&?) (?&?&?&?).
  repeat split; [congruence..|]. by eapply one_way_trans.
Qed.

(** A feed check never raises, and never switches a feed back on. *)
Lemma check_feed_ok (feed : Feed) (gk : list Keyword) (w : World) :
  exists w', check_feed feed gk w = (Ok tt, w') /\ feed_frame w w'.
Proof.
  destruct (applicable feed gk (db w)) as [|k ks] eqn:Ek.
  { exists w. split; [by apply check_feed_skipped | apply feed_frame_refl]. }
  assert (Hk : applicable feed gk (db w) <> []) by by rewrite Ek.
  destruct (fetch_feed_shape (f_url feed)) as [[fd E]|[msg E]].
  - destruct (check_feed_success feed gk w fd None Hk E) as (w' & Er & F).
    exists w'. split; [done|].
    destruct F as (Ff & Fk & Fr & _ & Fc). cbn in Ff, Fk, Fr, Fc.
    repeat split; [done..|].
    apply (one_way_trans _
             (update_feed (f_id feed) (success_patch fd (clock w)) (db w)));
      [by apply one_way_update_feed | by apply one_way_same_feeds].
  - rewrite check_feed_failure by (done || by rewrite E).
    eexists; split; [done|]. repeat split. cbn. apply one_way_increment_error.
Qed.

Lemma check_feeds_ok (fs : list Feed) (gk : list Keyword) (w : World) :
  exists w',
    for_each fs (fun feed => check_feed feed gk) w = (Ok tt, w') /\ feed_frame w w'.
Proof.
  revert w. induction fs as [|feed fs IH]; intros w; cbn [for_each].
  - exists w. split; [done | apply feed_frame_refl].
  - destruct (check_feed_ok feed gk w) as (w1 & E1 & F1).
    destruct (IH w1) as (w2 & E2 & F2).
    exists w2. unfold bind. rewrite E1. split; [done|]. by eapply feed_frame_trans.
Qed.

Lemma sweep_ok (w : World) :
  exists w', sweep w = (Ok tt, w') /\ feed_frame w w'.
Proof. unfold sweep, bind, read. apply check_feeds_ok. Qed.

Lemma check_all_feeds_run (w : World) :
  is_running w = false ->
  exists w',
    sweep (set_running true w) = (Ok tt, w') /\
    check_all_feeds w =
    (Ok tt,
     set_db (clean_old_sent_items (clock w') (history_days config) (db w'))
            (set_running false w')).
Proof.
  intros H. destruct (sweep_ok (set_running true w)) as (w' & E & _).
  exists w'. split; [done|].
  unfold check_all_feeds, guarded. rewrite H.
  unfold bind at 1. unfold modify at 1. unfold try_finally, try_except.
  by rewrite E.
Qed.

Lemma applicable_keywords (feed : Feed) (gk : list Keyword) (d d' : Database) :
  keywords d' = keywords d -> applicable feed gk d' = applicable feed gk d.
Proof. unfold applicable, get_feed_keywords. by intros ->. Qed.

Lemma failed_checks (n : nat) (feed : Feed) (gk : list Keyword) (w : World) (row : Feed) :
  get_feed_by_id (f_id feed) (db w) = Some row ->
  applicable feed gk (db w) <> [] ->
  fst (fst (fetch_feed (f_url feed))) = false ->
  get_feed_by_id (f_id feed) (db (checks n feed gk w)) = Some (Nat.iter n bump_error row) /\
  applicable feed gk (db (checks n feed gk w)) <> [].
Proof.
  intros Hrow Hk Hf. induction n as [|n [IHrow IHk]]; [done|].
  unfold checks in *. rewrite !Nat.iter_succ.
  rewrite check_feed_failure by done. cbn [snd db set_db log_fetch].
  rewrite get_feed_increment_error, IHrow. split; [done|].
  erewrite applicable_keywords; [exact IHk | done].
Qed.

(** C3: a failed fetch adds exactly 1 to the error count and switches the
    feed off once the count is 10 or more; from a count of 0, fewer than 10
    failures in a row leave the flag as it was (so 9 leave it on) and the
    10th switches it off; a successful fetch sets the count to 0 and leaves
    the flag alone; and neither a feed check nor a whole sweep switches a
    feed back on. *)
Theorem error_count_policy (feed : Feed) (gk : list Keyword) (w : World) (row : Feed) :
  get_feed_by_id (f_id feed) (db w) = Some row ->
  applicable feed gk (db w) <> [] ->
  (fst (fst (fetch_feed (f_url feed))) = false ->
     get_feed_by_id (f_id feed) (db (snd (check_feed feed gk w))) = Some (bump_error row) /\
     f_error_count (bump_error row) = (f_error_count row + 1)%Z /\
     f_is_active (bump_error row) =
       (if (10 <=? f_error_count row + 1)%Z then false else f_is_active row) /\
     (f_error_count row = 0%Z ->
      forall n : nat,
        exists row_n,
          get_feed_by_id (f_id feed) (db (checks n feed gk w)) = Some row_n /\
          f_error_count row_n = Z.of_nat n /\
          f_is_active row_n = if (n <? 10)%nat then f_is_active row else false)) /\
  (fst (fst (fetch_feed (f_url feed))) = true ->
     exists row',
       get_feed_by_id (f_id feed) (db (snd (check_feed feed gk w))) = Some row' /\
       f_error_count row' = 0%Z /\
       f_is_active row' = f_is_active row) /\
  (forall fid,
     active_flag fid (db w) = Some false ->
     active_flag fid (db (snd (check_feed feed gk w))) = Some false /\
     active_flag fid (db (snd (check_all_feeds w))) = Some false).
Proof.
  intros Hrow Hk. split; [|split].
  - intros Hf. repeat split.
    + rewrite check_feed_failure by done. cbn [snd db set_db log_fetch].
      by rewrite get_feed_increment_error, Hrow.
    + intros H0 n. exists (Nat.iter n bump_error row).
      destruct (failed_checks n feed gk w row Hrow Hk Hf) as [-> _].
      split; [done|]. split; [|by apply bump_iter_active].
      rewrite bump_iter_count, H0. lia.
  - intros Hs.
    destruct (fetch_feed_shape (f_url feed)) as [[fd E]|[msg E]];
      rewrite E in Hs; [|done].
    destruct (check_feed_success feed gk w fd None Hk E) as (w' & -> & Ff & _).
    cbn [snd]. unfold get_feed_by_id in *. rewrite Ff. cbn [db set_db log_fetch].
    fold (get_feed_by_id (f_id feed)
            (update_feed (f_id feed) (success_patch fd (clock w)) (db w))).
    rewrite get_feed_update_feed. unfold get_feed_by_id. rewrite Hrow. cbn.
    by eexists.
  - intros fid Hoff. split.
    + destruct (check_feed_ok feed gk w) as (w' & -> & _ & _ & _ & Hw). by apply Hw.
    + unfold check_all_feeds, guarded.
      destruct (is_running w); [done|].
      unfold bind at 1. unfold modify at 1. unfold try_finally, try_except.
      destruct (sweep_ok (set_running true w)) as (w' & -> & _ & _ & _ & Hw).
      cbn. unfold active_flag, get_feed_by_id. cbn. by apply Hw.
Qed.

Lemma bind_read {A B : Type} (f : World -> A) (k : A -> M B) (w : World) :
  bind (read f) k w = k (f w) w.
Proof. reflexivity. Qed.

(** A trigger that finds the guard clear sets it, runs its [try] block from
    the world with the guard set, swallows what the block raises, clears the
    guard and purges. *)
Lemma guarded_run (body : M unit) (w : World) :
  is_running w = false ->
  guarded body w =
  (Ok tt,
   let w' := snd (body (set_running true w)) in
   set_db (clean_old_sent_items (clock w') (history_days config) (db w'))
          (set_running false w')).
Proof.
  intros H. unfold guarded. rewrite H.
  unfold bind at 1. unfold modify at 1. unfold try_finally, try_except.
  by destruct (body (set_running true w)) as [[[]|e] w1].
Qed.

(** Triggers that fire before and after each feed check while the guard is
    set leave the run of the checks as it is. *)
Lemma triggers_dropped (body : M unit) (fs : list Feed) (gk : list Keyword) (w : World) :
  is_running w = true ->
  for_each fs (fun feed => guarded body ;;; check_feed feed gk ;;; guarded body) w =
  for_each fs (fun feed => check_feed feed gk) w.
Proof.
  revert w. induction fs as [|feed fs IH]; intros w H; cbn [for_each]; [done|].
  destruct (check_feed_ok feed gk w) as (w1 & E1 & H1 & _).
  assert (G : forall w0, is_running w0 = true -> guarded body w0 = (Ok tt, w0)).
  { intros w0 H0. unfold guarded. by rewrite H0. }
  unfold bind. rewrite (G w H), E1, (G w1) by congruence.
  apply IH. congruence.
Qed.

(** C9: a trigger that finds the guard set returns at once and changes
    nothing: no fetch, no delivery. A trigger that finds it clear sets the
    guard, runs its [try] block from the world in which the guard is set, and
    then clears the guard and purges, whether the block returned or raised.
    The feed checks never touch the guard, so it is set from the start of a
    sweep to its end; triggers that fire during a sweep, before or after any
    feed check, are dropped: the sweep is the one without them. *)
Theorem sweep_guard (w : World) (body : M unit) :
  (is_running w = true ->
     check_all_feeds w = (Ok tt, w) /\ guarded body w = (Ok tt, w)) /\
  (is_running w = false ->
     guarded body w =
       (Ok tt,
        let w' := snd (body (set_running true w)) in
        set_db (clean_old_sent_items (clock w') (history_days config) (db w'))
               (set_running false w')) /\
     is_running (set_running true w) = true /\
     is_running (snd (guarded body w)) = false /\
     is_running (snd (check_all_feeds w)) = false) /\
  (forall (fs : list Feed) (gk : list Keyword),
     is_running (snd (for_each fs (fun feed => check_feed feed gk) w)) = is_running w) /\
  (is_running w = true ->
     forall (fs : list Feed) (gk : list Keyword),
       for_each fs (fun feed => guarded body ;;; check_feed feed gk ;;; guarded body) w =
       for_each fs (fun feed => check_feed feed gk) w) /\
  (is_running w = false ->
     guarded
       (feeds <- read (fun w0 => get_active_feeds (db w0)) ;;
        global_keywords <- read (fun w0 => get_global_keywords (db w0)) ;;
        for_each feeds
          (fun feed =>
             guarded body ;;; check_feed feed global_keywords ;;; guarded body)) w =
     check_all_feeds w).
Proof.
  split; [|split; [|split; [|split]]].
  - intros H. unfold check_all_feeds, guarded. by rewrite H.
  - intros H. split; [by apply guarded_run|]. split; [done|].
    unfold check_all_feeds. by rewrite !guarded_run.
  - intros fs gk. by destruct (check_feeds_ok fs gk w) as (w' & -> & H & _).
  - intros H fs gk. by apply triggers_dropped.
  - intros H. unfold check_all_feeds. rewrite !guarded_run by done.
    unfold sweep. rewrite !bind_read. by rewrite triggers_dropped.
Qed.

(** ** What the parser hands to the checker *)

Lemma parse_entries_no_url (entries : list RawEntry) :
  Forall no_url (parse_entries entries).
Proof.
  induction entries as [|raw entries IH]; cbn [parse_entries]; [constructor|].
  destruct (_parse_entry raw) as [item|] eqn:E; [|done].
  constructor; [|done]. by destruct (_parse_entry_Some _ _ E) as (_ & _ & _ & ?).
Qed.

Lemma check_entries_no_url (feed : Feed) (entries : list PyDict) (kws : list Keyword)
    (w : World) :
  Forall no_url entries ->
  for_each entries (fun entry => check_entry feed entry kws) w = (Ok tt, w).
Proof.
  induction 1 as [|item entries Hi _ IH]; cbn [for_each]; [done|].
  unfold bind. rewrite check_entry_no_url; [exact IH|].
  unfold entry_url, dict_get. by rewrite Hi.
Qed.

(** The normalised entries carry their address under ["link"], the checker
    reads ["url"]: no entry of a fetched feed gets past its first test. *)
Lemma check_feed_quiet (feed : Feed) (gk : list Keyword) (w : World) :
  deliveries (snd (check_feed feed gk w)) = deliveries w /\
  sent_items (db (snd (check_feed feed gk w))) = sent_items (db w).
Proof.
  destruct (applicable feed gk (db w)) as [|k ks] eqn:Ek.
  { by rewrite check_feed_skipped. }
  assert (Hk : applicable feed gk (db w) <> []) by by rewrite Ek.
  destruct (fetch_feed_shape (f_url feed)) as [[fd E]|[msg E]].
  - unfold applicable in Ek.
    unfold check_feed, try_except, bind, read. rewrite Ek.
    unfold modify at 1. rewrite E. unfold modify_db, modify.
    rewrite check_entries_no_url; [done|].
    unfold fetch_feed in E. destruct (http_get (f_url feed)); try done.
    destruct (bozo feed0 && _); [done|]. injection E as <-.
    apply parse_entries_no_url.
  - rewrite check_feed_failure by (done || by rewrite E). done.
Qed.

Lemma check_feeds_quiet (fs : list Feed) (gk : list Keyword) (w : World) :
  deliveries (snd (for_each fs (fun feed => check_feed feed gk) w)) = deliveries w /\
  sent_items (db (snd (for_each fs (fun feed => check_feed feed gk) w))) = sent_items (db w).
Proof.
  revert w. induction fs as [|feed fs IH]; intros w; cbn [for_each]; [done|].
  unfold bind. destruct (check_feed_ok feed gk w) as (w1 & E1 & _).
  destruct (check_feed_quiet feed gk w) as [Hd Hs]. rewrite E1 in *. cbn [snd] in *.
  destruct (IH w1) as [Hd1 Hs1]. split; congruence.
Qed.

Lemma sweep_quiet (w : World) :
  exists w',
    sweep w = (Ok tt, w') /\
    deliveries w' = deliveries w /\
    sent_items (db w') = sent_items (db w).
Proof.
  unfold sweep, bind, read.
  destruct (check_feeds_ok (get_active_feeds (db w)) (get_global_keywords (db w)) w)
    as (w' & E & _).
  destruct (check_feeds_quiet (get_active_feeds (db w)) (get_global_keywords (db w)) w)
    as [Hd Hs].
  rewrite E in *. by exists w'.
Qed.

(** A sweep delivers nothing and records nothing, whatever the feeds hold. *)
Lemma check_all_feeds_quiet (w : World) :
  deliveries (snd (check_all_feeds w)) = deliveries w /\
  forall item, item ∈ sent_items (db (snd (check_all_feeds w))) -> item ∈ sent_items (db w).
Proof.
  destruct (is_running w) eqn:H.
  { unfold check_all_feeds, guarded. by rewrite H. }
  destruct (check_all_feeds_run w H) as (w' & E & ->).
  destruct (sweep_quiet (set_running true w)) as (w'' & E' & Hd & Hs).
  rewrite E in E'. injection E' as <-.
  cbn in Hd, Hs |- *. split; [done|].
  intros item [_ Hin]%list_elem_of_filter. by rewrite <- Hs.
Qed.

(** * Further properties of the engine *)

(** ** More facts about the string primitives *)

Lemma prefix_empty (s : string) : String.prefix "" s = true.
Proof. by destruct s. Qed.

Lemma contains_empty (s : string) : contains "" s = true.
Proof. destruct s; cbn [contains]; by rewrite prefix_empty. Qed.

Lemma prefix_app (k a b : string) :
  String.prefix k a = true -> String.prefix k (a +:+ b) = true.
Proof.
  revert a. induction k as [|c k IH]; intros a H; [apply prefix_empty|].
  destruct a as [|c' a]; [done|].
  rewrite append_cons. cbn [String.prefix] in *.
  destruct (ascii_dec c c'); [by apply IH | done].
Qed.

Lemma contains_app_l (k a b : string) :
  contains k a = true -> contains k (a +:+ b) = true.
Proof.
  induction a as [|c a IH]; cbn [contains].
  - rewrite orb_false_r. intros H. destruct k; [apply contains_empty | by destruct b].
  - rewrite append_cons. cbn [contains]. intros [H|H]%orb_true_iff.
    + pose proof (prefix_app k (String c a) b H) as P.
      rewrite append_cons in P. by rewrite P.
    + by rewrite (IH H), orb_true_r.
Qed.

Lemma contains_app_r (k a b : string) :
  contains k b = true -> contains k (a +:+ b) = true.
Proof.
  intros H. induction a as [|c a IH]; [done|].
  rewrite append_cons. cbn [contains]. by rewrite IH, orb_true_r.
Qed.

Lemma lower_app (a b : string) : lower (a +:+ b) = lower a +:+ lower b.
Proof.
  induction a as [|c a IH]; [done|].
  rewrite append_cons. cbn [lower]. by rewrite IH, append_cons.
Qed.

Lemma lower_char_idem (c : ascii) : lower_char (lower_char c) = lower_char c.
Proof.
  unfold lower_char.
  destruct ((65 <=? nat_of_ascii c)%nat && (nat_of_ascii c <=? 90)%nat) eqn:E.
  - apply andb_true_iff in E as [H1%Nat.leb_le H2%Nat.leb_le].
    rewrite nat_ascii_embedding by lia.
    destruct (Nat.leb_spec (nat_of_ascii c + 32) 90); [lia|].
    by rewrite andb_false_r.
  - by rewrite E.
Qed.

Lemma lower_idem (s : string) : lower (lower s) = lower s.
Proof.
  induction s as [|c s IH]; [done|]. cbn [lower]. by rewrite lower_char_idem, IH.
Qed.

Lemma lower_text (title summary : string) :
  lower (lower title +:+ " " +:+ lower summary) = lower (title +:+ " " +:+ summary).
Proof. by rewrite !lower_app, !lower_idem. Qed.

(** ** More about the matcher *)

(** X1: matching does not depend on the letter case of the title and the
    summary, for every kind of rule. *)
Theorem match_ignores_case_of_text (title summary : string) (kw : Keyword) :
  _match_keyword (lower title) (lower summary) kw = _match_keyword title summary kw.
Proof. unfold _match_keyword, match_body. by rewrite lower_text. Qed.

(** X2: a plain rule whose lowercased pattern occurs in the lowercased title,
    or in the lowercased summary, matches whatever the other field holds. *)
Theorem plain_rule_matches_either_field (title summary : string) (kw : Keyword) :
  keyword_type kw = "normal" ->
  contains (lower (keyword kw)) (lower title) = true \/
  contains (lower (keyword kw)) (lower summary) = true ->
  _match_keyword title summary kw = true.
Proof.
  intros Hk H. unfold _match_keyword, match_body. rewrite Hk.
  cbn [String.eqb Ascii.eqb Bool.eqb]. rewrite !lower_app.
  destruct H as [H|H].
  - by apply contains_app_l.
  - by apply contains_app_r, contains_app_r.
Qed.

(** X3: an [or] rule one of whose alternatives is empty after trimming (a
    pattern that ends in [|], say) matches every entry. *)
Theorem or_rule_with_empty_alternative (title summary part : string) (kw : Keyword) :
  keyword_type kw = "or" ->
  In part (split "|" (keyword kw)) ->
  strip part = "" ->
  _match_keyword title summary kw = true.
Proof.
  intros Hk Hin Hs. unfold _match_keyword, match_body. rewrite Hk.
  cbn [String.eqb Ascii.eqb Bool.eqb].
  apply existsb_exists. exists part. split; [done|].
  rewrite Hs. apply contains_empty.
Qed.

(** X4: the labels the rule loop collects are exactly the patterns of the
    active rules that match, and the loop reports a match exactly when it
    collected a label; an inactive rule contributes nothing. *)
Theorem match_loop_collects (title summary : string) (kws : list Keyword) :
  (forall label,
     In label (snd (match_loop title summary kws)) <->
     exists kw, In kw kws /\ k_is_active kw = true /\
                _match_keyword title summary kw = true /\ keyword kw = label) /\
  (fst (match_loop title summary kws) = true <->
   snd (match_loop title summary kws) <> []).
Proof.
  rewrite match_loop_filter. cbn [fst snd]. split.
  - intros label. rewrite in_map_iff. split.
    + intros (kw & <- & [Hin [Ha Hm]%andb_true_iff]%filter_In). by exists kw.
    + intros (kw & Hin & Ha & Hm & <-). exists kw. split; [done|].
      apply filter_In. by rewrite Ha, Hm.
  - induction kws as [|kw kws IH]; cbn [existsb List.filter map]; [done|].
    destruct (k_is_active kw && _match_keyword title summary kw); cbn [map orb];
      [done | exact IH].
Qed.

(** X5: a raw rule with none of the special forms is stored as it is, kind
    and all, is active, and matches exactly when its lowercased text occurs
    in the lowercased "title summary". *)
Theorem plain_keyword_added_matches_by_containment (raw : string) (feed_id : option Z)
    (d : Database) (title summary : string) :
  startswith raw "regex:" = false ->
  startswith raw "+" = false ->
  startswith raw "|" = false ->
  contains " -" raw = false ->
  let kw := fst (add_keyword raw feed_id "normal" d) in
  keyword kw = raw /\
  keyword_type kw = "normal" /\
  k_is_active kw = true /\
  _match_keyword title summary kw =
    contains (lower raw) (lower (title +:+ " " +:+ summary)).
Proof.
  intros H1 H2 H3 H4. unfold add_keyword, derive_keyword.
  rewrite H1, H2, H3, H4. cbn [fst keyword keyword_type k_is_active].
  repeat split. 
Qed.

(** X6: for a raw rule that begins with [+] or with [|] exactly that one
    character is cut off, whatever kind the caller passed; the rule added
    matches when every [+]-separated part of the rest, trimmed and
    lowercased, occurs in the lowercased "title summary", respectively when
    at least one [|]-separated part does. *)
Theorem and_or_keyword_added_matches (rest kind : string) (feed_id : option Z)
    (d : Database) (title summary : string) :
  let text := lower (title +:+ " " +:+ summary) in
  let kw_and := fst (add_keyword (String "+" rest) feed_id kind d) in
  let kw_or := fst (add_keyword (String "|" rest) feed_id kind d) in
  (keyword kw_and = rest /\ keyword_type kw_and = "and" /\
   _match_keyword title summary kw_and =
     forallb (fun part => contains (lower (strip part)) text) (split "+" rest)) /\
  (keyword kw_or = rest /\ keyword_type kw_or = "or" /\
   _match_keyword title summary kw_or =
     existsb (fun part => contains (lower (strip part)) text) (split "|" rest)).
Proof.
  unfold add_keyword, derive_keyword, startswith.
  cbn [String.prefix]. cbn [ascii_dec ascii_rec ascii_rect Bool.bool_dec bool_rec bool_rect
                            sumbool_rec sumbool_rect].
  rewrite prefix_empty. by repeat split.
Qed.

(** ** More about entries and the dedup store *)

(** X7: checking the same entry twice in a row is the same as checking it
    once: the second check returns without delivering or recording. *)
Theorem check_entry_idempotent (feed : Feed) (entry : PyDict) (kws : list Keyword)
    (w : World) :
  let once := snd (check_entry feed entry kws w) in
  check_entry feed entry kws once = (Ok tt, once).
Proof.
  cbv zeta.
  destruct (truthy (entry_url entry)) eqn:Hu;
    [|by rewrite !check_entry_no_url].
  destruct (is_sent (entry_hash feed entry) (db w)) eqn:Hs.
  { rewrite (check_entry_sent feed entry kws w Hs). by apply check_entry_sent. }
  destruct (fst (match_loop (entry_title entry) (entry_summary entry) kws)) eqn:Hm.
  - rewrite (check_entry_match feed entry kws w Hu Hs Hm).
    apply check_entry_sent. apply mark_sent_is_sent.
  - rewrite (check_entry_no_match feed entry kws w Hm). by apply check_entry_no_match.
Qed.

Lemma check_entry_unique (feed : Feed) (entry : PyDict) (kws : list Keyword) (w : World) :
  unique_hashes (db w) -> unique_hashes (db (snd (check_entry feed entry kws w))).
Proof.
  intros Hu.
  destruct (truthy (entry_url entry)) eqn:Ht;
    [|by rewrite check_entry_no_url].
  destruct (is_sent (entry_hash feed entry) (db w)) eqn:Hs;
    [by rewrite check_entry_sent|].
  destruct (fst (match_loop (entry_title entry) (entry_summary entry) kws)) eqn:Hm;
    [|by rewrite check_entry_no_match].
  rewrite check_entry_match by done. rewrite send_notification_run. cbn [snd].
  by apply mark_sent_unique.
Qed.

(** X8: a run over any list of entries never raises (the unique index is
    never violated) and leaves the fingerprints of the store pairwise
    distinct. *)
Theorem check_entries_keep_store_sound (feed : Feed) (entries : list PyDict)
    (kws : list Keyword) (w : World) :
  unique_hashes (db w) ->
  fst (for_each entries (fun entry => check_entry feed entry kws) w) = Ok tt /\
  unique_hashes (db (snd (for_each entries (fun entry => check_entry feed entry kws) w))).
Proof.
  revert w. induction entries as [|entry entries IH]; intros w Hu; cbn [for_each]; [done|].
  unfold bind. pose proof (check_entry_unique feed entry kws w Hu) as Hu1.
  destruct (check_entry_ok feed entry kws w) as (w1 & E1 & _).
  rewrite E1 in *. by apply IH.
Qed.

(** X9: with an empty recipient list a matching entry is recorded as sent
    although nothing was delivered to anyone. *)
Theorem no_recipient_still_marks_sent (feed : Feed) (entry : PyDict)
    (kws : list Keyword) (w : World) :
  admin_user_ids config = [] ->
  truthy (entry_url entry) = true ->
  is_sent (entry_hash feed entry) (db w) = false ->
  fst (match_loop (entry_title entry) (entry_summary entry) kws) = true ->
  deliveries (snd (check_entry feed entry kws w)) = deliveries w /\
  is_sent (entry_hash feed entry) (db (snd (check_entry feed entry kws w))) = true.
Proof.
  intros Ha Hu Hs Hm. rewrite check_entry_match by done.
  rewrite send_notification_run. cbn [snd]. split.
  - rewrite mark_sent_fresh by done. cbn. unfold attempts. rewrite Ha. cbn.
    by rewrite app_nil_r.
  - apply mark_sent_is_sent.
Qed.

(** X11: the tag made from a label has no space in it. *)
Theorem hashtag_has_no_space (kw : string) : contains " " (hashtag kw) = false.
Proof.
  unfold hashtag.
  change ("#" +:+ replace_char " " "_" kw) with (String "#" (replace_char " " "_" kw)).
  cbn [contains]. 
  assert (H : contains " " (replace_char " " "_" kw) = false).
  { induction kw as [|c kw IH]; [done|].
    cbn [replace_char contains]. rewrite IH, orb_false_r.
    destruct (Ascii.eqb_spec c " ") as [->|Hc]; [done|].
    cbn [String.prefix]. destruct (ascii_dec " " c); [congruence | done]. }
  by rewrite H.
Qed.

(** X12: a notification never raises and changes nothing but the delivery
    log, to which it adds one attempt per recipient, in the order of the
    recipient list; every attempt carries the same text, and the entry's
    image as photo exactly when the entry has a non-empty image. *)
Theorem notification_shape (feed : Feed) (entry : PyDict) (mk : list string) (w : World) :
  let r := send_notification feed entry mk w in
  let image := dict_get entry "image" None in
  fst r = Ok tt /\
  db (snd r) = db w /\
  exists log,
    deliveries (snd r) = (deliveries w ++ log)%list /\
    map (fun a => chat_id (fst a)) log = admin_user_ids config /\
    Forall (fun a =>
              text (fst a) = render_message feed entry mk /\
              photo (fst a) = (if truthy image then image else None) /\
              snd a = bot_send (fst a)) log.
Proof.
  cbv zeta. rewrite send_notification_run. cbn [fst snd]. split; [done|]. split; [done|].
  exists (attempts feed entry mk). split; [done|].
  unfold attempts. induction (admin_user_ids config) as [|a l [IH1 IH2]]; [done|].
  cbn [map]. split.
  - rewrite IH1. f_equal. unfold delivery_for.
    by destruct (truthy (dict_get entry "image" None)).
  - constructor; [|done]. cbn [fst snd]. unfold delivery_for.
    by destruct (truthy (dict_get entry "image" None)).
Qed.

(** X13: after the cleanup a fingerprint counts as sent exactly when one of
    its records is not older than the cutoff of [days] days before [now]. *)
Theorem is_sent_after_cleanup (h : string) (now days : Z) (d : Database) :
  is_sent h (clean_old_sent_items now days d) = true <->
  exists item,
    In item (sent_items d) /\ item_hash item = h /\
    (now - days * SECONDS_PER_DAY <= sent_at item)%Z.
Proof.
  unfold is_sent, clean_old_sent_items. cbn [sent_items with_sent_items].
  rewrite existsb_exists. split.
  - intros (item & [Hold Hin]%list_elem_of_In%list_elem_of_filter & E%String.eqb_eq).
    exists item. split; [by apply list_elem_of_In|]. split; [done | lia].
  - intros (item & Hin & <- & Hnew). exists item. split; [|apply String.eqb_refl].
    apply list_elem_of_In, list_elem_of_filter. split; [lia | by apply list_elem_of_In].
Qed.

(** X14: after [mark_sent] a fingerprint counts as sent exactly when it did
    before or it is the one just marked. *)
Theorem is_sent_after_mark_sent (h : string) (feed_id : Z) (title : option string)
    (url : string) (w : World) :
  is_sent h (db (snd (mark_sent feed_id title url w))) =
  is_sent h (db w) || String.eqb (compute_hash feed_id url) h.
Proof.
  destruct (is_sent (compute_hash feed_id url) (db w)) eqn:Hs.
  - rewrite mark_sent_again by done. cbn [snd].
    destruct (String.eqb_spec (compute_hash feed_id url) h) as [<-|_].
    + by rewrite Hs.
    + by rewrite orb_false_r.
  - rewrite mark_sent_fresh by done. cbn. unfold is_sent. cbn.
    rewrite existsb_app. cbn. by rewrite orb_false_r.
Qed.

(** ** More about the sweep *)

Lemma check_feed_fetched (feed : Feed) (gk : list Keyword) (w : World) :
  exists w',
    check_feed feed gk w = (Ok tt, w') /\
    keywords (db w') = keywords (db w) /\
    fetched w' =
      (fetched w ++ if has_rules feed gk (db w) then [f_url feed] else [])%list.
Proof.
  unfold has_rules.
  destruct (applicable feed gk (db w)) as [|k ks] eqn:Ek.
  { exists w. rewrite check_feed_skipped by done. by rewrite app_nil_r. }
  assert (Hk : applicable feed gk (db w) <> []) by by rewrite Ek.
  destruct (fetch_feed_shape (f_url feed)) as [[fd E]|[msg E]].
  - destruct (check_feed_success feed gk w fd None Hk E) as (w' & Er & _ & Fk & _ & Ff & _).
    exists w'. by repeat split.
  - rewrite check_feed_failure by (done || by rewrite E).
    eexists. by repeat split.
Qed.

Lemma has_rules_keywords (feed : Feed) (gk : list Keyword) (d d' : Database) :
  keywords d' = keywords d -> has_rules feed gk d' = has_rules feed gk d.
Proof. intros H. unfold has_rules. by rewrite (applicable_keywords feed gk d d' H). Qed.

Lemma check_feeds_fetched (fs : list Feed) (gk : list Keyword) (w : World) :
  exists w',
    for_each fs (fun feed => check_feed feed gk) w = (Ok tt, w') /\
    keywords (db w') = keywords (db w) /\
    fetched w' =
      (fetched w ++
       map f_url (List.filter (fun feed => has_rules feed gk (db w)) fs))%list.
Proof.
  revert w. induction fs as [|feed fs IH]; intros w; cbn [for_each List.filter].
  - exists w. by rewrite app_nil_r.
  - destruct (check_feed_fetched feed gk w) as (w1 & E1 & K1 & F1).
    destruct (IH w1) as (w2 & E2 & K2 & F2).
    exists w2. unfold bind. rewrite E1. split; [done|]. split; [congruence|].
    rewrite F2, F1.
    rewrite (List.filter_ext (fun feed0 => has_rules feed0 gk (db w1))
                             (fun feed0 => has_rules feed0 gk (db w)))
      by (intros f; by apply has_rules_keywords).
    destruct (has_rules feed gk (db w)); cbn [map]; by rewrite <- app_assoc.
Qed.

(** X15: a sweep requests exactly the feeds that are active and have a rule
    to be checked against, each once, in table order; a feed that is switched
    off, or has no rule, is not requested. *)
Theorem sweep_fetches_active_feeds_with_rules (w : World) :
  is_running w = false ->
  fetched (snd (check_all_feeds w)) =
  (fetched w ++
   map f_url
     (List.filter (fun feed => has_rules feed (get_global_keywords (db w)) (db w))
                  (get_active_feeds (db w))))%list.
Proof.
  intros H. destruct (check_all_feeds_run w H) as (w' & E & ->). cbn [snd].
  unfold sweep, bind, read in E.
  destruct (check_feeds_fetched (get_active_feeds (db (set_running true w)))
              (get_global_keywords (db (set_running true w))) (set_running true w))
    as (w'' & E' & _ & F).
  rewrite E in E'. injection E' as <-. exact F.
Qed.

(** X17: when a sweep that ran is over, no record older than the retention
    window is left in the store. *)
Theorem sweep_purges_old_records (w : World) (item : SentItem) :
  is_running w = false ->
  In item (sent_items (db (snd (check_all_feeds w)))) ->
  (clock w - history_days config * SECONDS_PER_DAY <= sent_at item)%Z.
Proof.
  intros H. destruct (check_all_feeds_run w H) as (w' & E & ->). cbn [snd].
  destruct (sweep_ok (set_running true w)) as (w'' & E' & _ & Hc & _).
  rewrite E in E'. injection E' as <-. cbn in Hc |- *.
  intros [Hold _]%list_elem_of_In%list_elem_of_filter. rewrite Hc in Hold. lia.
Qed.

(** ** More about the tables *)

Lemma next_keyword_id_above (rows : list Keyword) (row : Keyword) :
  In row rows -> (k_id row < next_keyword_id rows)%Z.
Proof.
  unfold next_keyword_id. induction rows as [|r rows IH]; cbn [In foldr]; [done|].
  intros [->|Hin]; [lia|]. specialize (IH Hin). lia.
Qed.

Lemma next_feed_id_above (rows : list Feed) (row : Feed) :
  In row rows -> (f_id row < next_feed_id rows)%Z.
Proof.
  unfold next_feed_id. induction rows as [|r rows IH]; cbn [In foldr]; [done|].
  intros [->|Hin]; [lia|]. specialize (IH Hin). lia.
Qed.

(** X18: a new rule gets a primary key above every key of the table, is
    listed last among the global rules when it has no feed and last among its
    feed's rules otherwise, and no other listing changes. *)
Theorem add_keyword_is_listed (raw kind : string) (feed_id : option Z) (d : Database) :
  let kw := fst (add_keyword raw feed_id kind d) in
  let d' := snd (add_keyword raw feed_id kind d) in
  (forall row, In row (keywords d) -> (k_id row < k_id kw)%Z) /\
  k_feed_id kw = feed_id /\
  get_global_keywords d' =
    (get_global_keywords d ++ if decide (feed_id = None) then [kw] else [])%list /\
  (forall fid,
     get_feed_keywords fid d' =
     (get_feed_keywords fid d ++ if decide (feed_id = Some fid) then [kw] else [])%list) /\
  feeds d' = feeds d /\ sent_items d' = sent_items d.
Proof.
  unfold add_keyword. destruct (derive_keyword raw kind) as [kw_text kw_type].
  cbn [fst snd]. repeat split.
  - intros row Hin. cbn [k_id]. by apply next_keyword_id_above.
  - unfold get_global_keywords. cbn [keywords with_keywords].
    rewrite filter_app. by f_equal.
  - intros fid. unfold get_feed_keywords. cbn [keywords with_keywords].
    rewrite filter_app. by f_equal.
Qed.

Lemma delete_first_keyword_fresh (keyword_id : Z) (rows : list Keyword) :
  (forall row, In row rows -> k_id row <> keyword_id) ->
  delete_first_keyword keyword_id rows = rows.
Proof.
  induction rows as [|r rows IH]; cbn [delete_first_keyword]; [done|].
  intros H. destruct (Z.eqb_spec (k_id r) keyword_id) as [E|_].
  - exfalso. apply (H r); [by left | done].
  - f_equal. apply IH. intros row Hin. apply H. by right.
Qed.

Lemma delete_first_keyword_last (kw : Keyword) (rows : list Keyword) :
  (forall row, In row rows -> k_id row <> k_id kw) ->
  delete_first_keyword (k_id kw) (rows ++ [kw]) = rows.
Proof.
  induction rows as [|r rows IH]; cbn [delete_first_keyword app]; intros H.
  - by rewrite Z.eqb_refl.
  - destruct (Z.eqb_spec (k_id r) (k_id kw)) as [E|_].
    + exfalso. apply (H r); [by left | done].
    + f_equal. apply IH. intros row Hin. apply H. by right.
Qed.

(** X19: deleting a rule right after adding it gives back the database as it
    was; and deleting under any key that no rule has changes nothing. *)
Theorem add_then_delete_keyword (raw kind : string) (feed_id : option Z) (d : Database) :
  delete_keyword (k_id (fst (add_keyword raw feed_id kind d)))
                 (snd (add_keyword raw feed_id kind d)) = d /\
  (forall keyword_id : Z,
     (forall row, In row (keywords d) -> k_id row <> keyword_id) ->
     delete_keyword keyword_id d = d).
Proof.
  assert (Hfresh : forall row, In row (keywords d) ->
                     k_id row <> next_keyword_id (keywords d)).
  { intros row Hin. pose proof (next_keyword_id_above _ _ Hin). lia. }
  split.
  - unfold add_keyword. destruct (derive_keyword raw kind) as [kw_text kw_type].
    cbn [fst snd k_id]. unfold delete_keyword. cbn [keywords with_keywords].
    match goal with
    | |- context [(keywords d ++ [?k])%list] =>
        pose proof (delete_first_keyword_last k (keywords d) Hfresh) as E
    end.
    cbn [k_id] in E. rewrite E. by destruct d.
  - intros keyword_id Hno. unfold delete_keyword.
    rewrite delete_first_keyword_fresh by exact Hno. by destruct d.
Qed.

Lemma delete_first_keyword_In (keyword_id : Z) (rows : list Keyword) (row : Keyword) :
  NoDup (map k_id rows) ->
  In row (delete_first_keyword keyword_id rows) <->
  In row rows /\ k_id row <> keyword_id.
Proof.
  induction rows as [|r rows IH]; cbn [delete_first_keyword map In]; [tauto|].
  intros [Hr Hnd]%NoDup_cons. specialize (IH Hnd).
  destruct (Z.eqb_spec (k_id r) keyword_id) as [E|N].
  - split.
    + intros Hin. split; [by right|]. intros Hk. apply Hr.
      rewrite E, <- Hk. apply list_elem_of_In, in_map. exact Hin.
    + intros [[->|Hin] Hk]; [done | exact Hin].
  - cbn [In]. rewrite IH. split.
    + intros [->|[Hin Hk]]; [by split; [left|] | by split; [right|]].
    + intros [[->|Hin] Hk]; [by left | by right].
Qed.

(** X10: in a table whose keys are pairwise distinct, deleting a rule by its
    key removes that rule and no other: what is left are exactly the rules
    with another key, so the deleted rule is in no listing any more and every
    other rule is where it was listed. *)
Theorem delete_keyword_removes_that_rule (keyword_id : Z) (d : Database) (row : Keyword) :
  NoDup (map k_id (keywords d)) ->
  (In row (get_all_keywords (delete_keyword keyword_id d)) <->
   In row (get_all_keywords d) /\ k_id row <> keyword_id) /\
  (In row (get_global_keywords (delete_keyword keyword_id d)) <->
   In row (get_global_keywords d) /\ k_id row <> keyword_id) /\
  (forall fid,
     In row (get_feed_keywords fid (delete_keyword keyword_id d)) <->
     In row (get_feed_keywords fid d) /\ k_id row <> keyword_id).
Proof.
  intros Hnd. pose proof (delete_first_keyword_In keyword_id (keywords d) row Hnd) as H.
  unfold get_all_keywords, get_global_keywords, get_feed_keywords, delete_keyword.
  cbn [keywords with_keywords]. split; [exact H|]. split; [|intros fid].
  all: rewrite <- !list_elem_of_In, !list_elem_of_filter, !list_elem_of_In, H; tauto.
Qed.

Lemma find_url_app_new (url : string) (rows : list Feed) (feed : Feed) :
  List.find (fun f => String.eqb (f_url f) url) rows = None ->
  f_url feed = url ->
  List.find (fun f => String.eqb (f_url f) url) (rows ++ [feed]) = Some feed.
Proof.
  intros Hn Hu. induction rows as [|r rows IH]; cbn [List.find app] in *.
  - by rewrite Hu, String.eqb_refl.
  - destruct (String.eqb (f_url r) url); [done | by apply IH].
Qed.

(** X20: subscribing to a URL that is already in the table returns the row
    that is there and changes nothing (a feed that was switched off stays
    off); subscribing to a new one appends an active row with no errors and a
    fresh key. Either way a second call with the same URL returns the same
    row and changes nothing, the URLs of the table stay pairwise distinct when
    they were, and rules and records are untouched. *)
Theorem add_feed_subscribes_once (url : string) (title title' description description' : option string)
    (d : Database) :
  let r := add_feed url title description d in
  (forall existing,
     List.find (fun f => String.eqb (f_url f) url) (feeds d) = Some existing ->
     r = (existing, d)) /\
  (List.find (fun f => String.eqb (f_url f) url) (feeds d) = None ->
     feeds (snd r) = (feeds d ++ [fst r])%list /\
     f_is_active (fst r) = true /\ f_error_count (fst r) = 0%Z /\
     forall row, In row (feeds d) -> (f_id row < f_id (fst r))%Z) /\
  f_url (fst r) = url /\
  add_feed url title' description' (snd r) = r /\
  (NoDup (map f_url (feeds d)) -> NoDup (map f_url (feeds (snd r)))) /\
  keywords (snd r) = keywords d /\ sent_items (snd r) = sent_items d.
Proof.
  cbv zeta.
  destruct (List.find (fun f => String.eqb (f_url f) url) (feeds d)) as [ex|] eqn:Ef.
  - assert (Hr : add_feed url title description d = (ex, d))
      by (unfold add_feed; by rewrite Ef).
    rewrite Hr. cbn [fst snd]. repeat split; try done.
    + by intros existing [= <-].
    + apply find_some in Ef as [_ E]. by apply String.eqb_eq.
    + unfold add_feed. by rewrite Ef.
  - assert (Hr : add_feed url title description d =
                 (mkFeed (next_feed_id (feeds d)) url title description true 0 None,
                  with_feeds d
                    (feeds d ++
                     [mkFeed (next_feed_id (feeds d)) url title description true 0 None])))
      by (unfold add_feed; by rewrite Ef).
    rewrite Hr.
    cbn [fst snd feeds with_feeds keywords sent_items f_url f_is_active f_error_count f_id].
    repeat split; try done.
    + intros row Hin. by apply next_feed_id_above.
    + unfold add_feed. cbn [feeds with_feeds].
      by rewrite (find_url_app_new url (feeds d)
                    (mkFeed (next_feed_id (feeds d)) url title description true 0 None)
                    Ef eq_refl).
    + intros Hnd. rewrite map_app. cbn [map f_url]. apply NoDup_app.
      split; [done|]. split; [|apply NoDup_singleton].
      intros u Hin ->%list_elem_of_singleton.
      apply list_elem_of_In, in_map_iff in Hin as (row & Hu & Hin).
      apply (find_none _ _ Ef) in Hin. cbn in Hin. rewrite Hu in Hin.
      by rewrite String.eqb_refl in Hin.
Qed.

(** X21: updating a feed, or counting an error for it, leaves every row
    selected by another key as it was. *)
Theorem feed_update_is_local (fid fid' : Z) (kwargs : FeedPatch) (d : Database) :
  fid' <> fid ->
  get_feed_by_id fid' (update_feed fid kwargs d) = get_feed_by_id fid' d /\
  get_feed_by_id fid' (increment_error fid d) = get_feed_by_id fid' d.
Proof.
  intros Hne. unfold get_feed_by_id, update_feed, increment_error.
  cbn [feeds with_feeds].
  rewrite !find_on_first_feed by done.
  destruct (Z.eqb_spec fid' fid) as [E|_]; [done|].
  by destruct (List.find _ (feeds d)).
Qed.

Lemma on_first_feed_missing (fid : Z) (g : Feed -> Feed) (rows : list Feed) :
  List.find (fun feed => (f_id feed =? fid)%Z) rows = None ->
  on_first_feed fid g rows = rows.
Proof.
  induction rows as [|r rows IH]; cbn [List.find on_first_feed]; [done|].
  destruct (f_id r =? fid)%Z; [done|]. intros H. by rewrite IH.
Qed.

(** X22: for a key that no row has (a feed deleted in the meantime), an
    update and an error count change nothing at all. *)
Theorem update_missing_feed_changes_nothing (fid : Z) (kwargs : FeedPatch) (d : Database) :
  get_feed_by_id fid d = None ->
  update_feed fid kwargs d = d /\ increment_error fid d = d.
Proof.
  unfold get_feed_by_id, update_feed, increment_error. intros H.
  rewrite !on_first_feed_missing by done. by destruct d.
Qed.

(** ** More about the parser *)

(** X23: a fetch succeeds exactly when the document could be retrieved and
    parsed and it is well-formed or has at least one entry: a malformed
    document with entries is accepted. On success there is data and no
    message, on failure a message and no data. *)
Theorem fetch_feed_success_iff (url : string) :
  (fst (fst (fetch_feed url)) = true <->
   exists doc, http_get url = Parsed doc /\ (bozo doc = false \/ pf_entries doc <> [])) /\
  (if fst (fst (fetch_feed url))
   then is_Some (snd (fst (fetch_feed url))) /\ snd (fetch_feed url) = None
   else snd (fst (fetch_feed url)) = None /\ is_Some (snd (fetch_feed url))).
Proof.
  unfold fetch_feed. destruct (http_get url) as [|code|msg|doc]; cbn [fst snd].
  - split; [|by eauto]. split; [done | by intros (doc & ? & _)].
  - split; [|by eauto]. split; [done | by intros (doc & ? & _)].
  - split; [|by eauto]. split; [done | by intros (doc & ? & _)].
  - destruct (bozo doc) eqn:Eb; destruct (pf_entries doc) as [|e es] eqn:Ee;
      cbn [andb negb length Nat.ltb Nat.leb fst snd].
    + split; [|by eauto]. split; [done|].
      intros (doc' & [= <-] & [H|H]); congruence.
    + split; [|by eauto]. split; [|done].
      intros _. exists doc. split; [done|]. right. by rewrite Ee.
    + split; [|by eauto]. split; [|done].
      intros _. exists doc. split; [done|]. by left.
    + split; [|by eauto]. split; [|done].
      intros _. exists doc. split; [done|]. by left.
Qed.

Lemma slice_to_length (n : nat) (s : string) : (String.length (slice_to n s) <= n)%nat.
Proof.
  revert s. induction n as [|n IH]; intros [|c s]; cbn [slice_to String.length]; try lia.
  specialize (IH s). lia.
Qed.

(** X24: a normalised entry has exactly the keys title, link, summary,
    published and image; its summary is at most 500 characters long, and is
    empty, without the HTML cleaner being asked, when the raw entry has no
    summary text. *)
Theorem parsed_entry_shape (entry : RawEntry) (item : PyDict) :
  _parse_entry entry = Some item ->
  dom item = ({["title"; "link"; "summary"; "published"; "image"]} : gset string) /\
  (exists s, item !! "summary" = Some (Some s) /\ (String.length s <= 500)%nat) /\
  (match r_summary entry with
   | Some s => s
   | None => default "" (r_description entry)
   end = "" -> item !! "summary" = Some (Some "")).
Proof.
  unfold _parse_entry.
  destruct (nonempty (strip (default "Untitled" (r_title entry)))); cbn [negb]; [|done].
  intros [= <-]. split; [|split].
  - rewrite !dom_insert_L, dom_empty_L. set_solver.
  - eexists. split; [|apply slice_to_length].
    rewrite lookup_insert_ne by done. rewrite lookup_insert_ne by done.
    by rewrite lookup_insert_eq.
  - intros ->.
    rewrite lookup_insert_ne by done. rewrite lookup_insert_ne by done.
    by rewrite lookup_insert_eq.
Qed.

(** X25: only the first link relation of HTML type is looked at: when its
    address is empty the entry's link is the generic link field, even if a
    later relation of HTML type has an address. *)
Theorem first_html_link_decides (entry : RawEntry) (item : PyDict)
    (before after : list RawLink) (l : RawLink) :
  _parse_entry entry = Some item ->
  r_links entry = (before ++ l :: after)%list ->
  Forall (fun l0 => startswith (default "" (l_type l0)) "text/html" = false) before ->
  startswith (default "" (l_type l)) "text/html" = true ->
  item !! "link" =
  Some (Some (if nonempty (default "" (l_href l)) then default "" (l_href l)
              else default "" (r_link entry))).
Proof.
  intros Hp Hl Hb Hh.
  destruct (_parse_entry_Some entry item Hp) as (_ & _ & -> & _).
  unfold link_of. rewrite Hl.
  assert (E : first_html_link (before ++ l :: after) = default "" (l_href l)).
  { clear Hl Hp. induction Hb as [|l0 before H0 _ IH]; cbn [first_html_link app].
    - by rewrite Hh.
    - by rewrite H0. }
  by rewrite E.
Qed.

(** ** The admin list of the configuration *)


Lemma split_no_sep (sep s cur : string) :
  contains sep s = false -> split_go sep s 0 cur = [cur +:+ s].
Proof.
  revert cur. induction s as [|c s IH]; intros cur; cbn [contains split_go].
  - intros _. by rewrite append_empty_r.
  - intros [Hp Hc]%orb_false_iff. rewrite Hp, (IH _ Hc).
    by rewrite append_assoc, append_cons, append_empty_l.
Qed.

Lemma split_go_comma_app (a b cur : string) :
  split_go "," (a +:+ String "," b) 0 cur =
  (split_go "," a 0 cur ++ split_go "," b 0 "")%list.
Proof.
  revert cur. induction a as [|c a IH]; intros cur.
  - rewrite append_empty_l. cbn [split_go String.prefix].
    destruct (ascii_dec "," ","); [|done]. by rewrite prefix_empty.
  - rewrite append_cons. cbn [split_go String.prefix].
    destruct (ascii_dec "," c); [|apply IH].
    rewrite !prefix_empty. cbn [String.length Nat.sub app]. by rewrite IH.
Qed.

Lemma parse_admin_user_ids_app (a b : string) :
  parse_admin_user_ids (a +:+ String "," b) =
  (parse_admin_user_ids a ++ parse_admin_user_ids b)%list.
Proof.
  unfold parse_admin_user_ids, split.
  by rewrite split_go_comma_app, List.filter_app, map_app.
Qed.


(** X27: when no entry of [ADMIN_USER_IDS] is a string of digits (the
    variable is unset or empty, say), the admin list is empty and every user
    passes the admin check. *)
Theorem admin_check_open_without_valid_id (env : string) (interval days user_id : Z) :
  Forall (fun uid => isdigit (strip uid) = false) (split "," env) ->
  parse_admin_user_ids env = [] /\
  is_admin {| admin_user_ids := parse_admin_user_ids env;
              refresh_interval := interval; history_days := days |} user_id = true.
Proof.
  intros H.
  assert (E : parse_admin_user_ids env = []).
  { unfold parse_admin_user_ids. induction H as [|uid l Hu _ IH]; [done|].
    cbn [List.filter]. by rewrite Hu. }
  split; [done|]. unfold is_admin, is_admin_mode. cbn [admin_user_ids]. by rewrite E.
Qed.

Lemma digit_not_space (c : ascii) : is_digit_char c = true -> isspace c = false.
Proof.
  unfold is_digit_char, isspace.
  intros [H1%Nat.leb_le H2%Nat.leb_le]%andb_true_iff.
  destruct (Nat.leb_spec 9 (nat_of_ascii c)); destruct (Nat.leb_spec (nat_of_ascii c) 13);
    destruct (Nat.leb_spec 28 (nat_of_ascii c)); destruct (Nat.leb_spec (nat_of_ascii c) 32);
    cbn; try done; lia.
Qed.

Lemma digits_rstrip (s : string) : all_chars is_digit_char s = true -> rstrip s = s.
Proof.
  induction s as [|c s IH]; [done|]. cbn [all_chars rstrip].
  intros [Hc Hs]%andb_true_iff. rewrite (IH Hs).
  destruct s; [by rewrite (digit_not_space c Hc) | done].
Qed.

Lemma digits_strip (s : string) : all_chars is_digit_char s = true -> strip s = s.
Proof.
  intros H. unfold strip.
  assert (E : lstrip s = s).
  { destruct s as [|c s]; [done|]. cbn [all_chars lstrip] in *.
    apply andb_true_iff in H as [Hc _]. by rewrite (digit_not_space c Hc). }
  rewrite E. by apply digits_rstrip.
Qed.

Lemma digits_no_comma (s : string) :
  all_chars is_digit_char s = true -> contains "," s = false.
Proof.
  induction s as [|c s IH]; [done|]. cbn [all_chars contains String.prefix].
  intros [Hc Hs]%andb_true_iff. rewrite (IH Hs), orb_false_r.
  destruct (ascii_dec "," c) as [<-|]; [done | done].
Qed.

Lemma uint_digits (d : Decimal.uint) :
  all_chars is_digit_char (NilEmpty.string_of_uint d) = true.
Proof. induction d; cbn [NilEmpty.string_of_uint all_chars]; by rewrite ?IHd. Qed.

Lemma int_digits_acc (d : Decimal.uint) (p : positive) :
  int_digits (Z.pos p) (NilEmpty.string_of_uint d) = Z.pos (Pos.of_uint_acc d p).
Proof.
  revert p. induction d; intros p;
    cbn [NilEmpty.string_of_uint int_digits Pos.of_uint_acc]; [done|..];
    rewrite <- IHd; f_equal;
    try match goal with
        | |- context [Z.of_nat ?n] =>
            let v := eval vm_compute in (Z.of_nat n) in change (Z.of_nat n) with v
        end;
    lia.
Qed.

Lemma int_digits_uint (d : Decimal.uint) :
  int_digits 0 (NilEmpty.string_of_uint d) = Z.of_uint d.
Proof.
  unfold Z.of_uint.
  induction d; cbn [NilEmpty.string_of_uint int_digits Pos.of_uint]; [done | exact IHd|..];
    (etrans; [|apply (f_equal Z.of_N (eq_refl (N.pos _)))]);
    cbn [Z.of_N]; rewrite <- int_digits_acc; f_equal.
Qed.

Lemma of_Z_digits (z : Z) :
  (0 <= z)%Z ->
  nonempty (of_Z z) = true /\
  all_chars is_digit_char (of_Z z) = true /\
  to_int (of_Z z) = z.
Proof.
  intros Hz. unfold of_Z, to_int.
  pose proof (DecimalZ.of_to z) as Hof.
  destruct z as [|p|p]; [by repeat split | | lia].
  cbn [Z.to_int NilZero.string_of_int] in *.
  unfold NilZero.string_of_uint.
  destruct (Pos.to_uint p) as [| | | | | | | | | |] eqn:Ed.
  1: { exfalso. revert Ed. apply (DecimalPos.Unsigned.to_uint_nonnil p). }
  all: rewrite <- Ed in *; split; [by rewrite Ed|]; split; [apply uint_digits|];
       rewrite int_digits_uint; exact Hof.
Qed.

Lemma parse_one_admin_id (z : Z) :
  (0 <= z)%Z -> parse_admin_user_ids (of_Z z) = [z].
Proof.
  intros Hz. destruct (of_Z_digits z Hz) as (Hn & Hd & Hi).
  unfold parse_admin_user_ids, split.
  rewrite split_no_sep by by apply digits_no_comma.
  rewrite append_empty_l. cbn [List.filter].
  rewrite (digits_strip _ Hd). unfold isdigit. rewrite Hn, Hd. cbn [andb map].
  by rewrite (digits_strip _ Hd), Hi.
Qed.

(** X28: a list of non-negative ids written in decimal and joined by commas
    is read back as the same list. *)
Theorem admin_ids_round_trip (ids : list Z) :
  Forall (fun id => (0 <= id)%Z) ids ->
  parse_admin_user_ids (join "," (map of_Z ids)) = ids.
Proof.
  induction 1 as [|z zs Hz Hzs IH]; [done|].
  destruct zs as [|z' zs].
  - cbn [map join]. by apply parse_one_admin_id.
  - change (join "," (map of_Z (z :: z' :: zs)))
      with (of_Z z +:+ String "," (join "," (map of_Z (z' :: zs)))).
    rewrite parse_admin_user_ids_app, IH. by rewrite parse_one_admin_id.
Qed.

End Engine.

(** * Concrete runs

    Stand-ins for the library calls, to run the engine on explicit inputs.
    The theorems above hold for every choice of them. *)

Definition stub_sha256 (s : string) : string := "sha256(" +:+ s +:+ ")".

(** Literal patterns only; an opening parenthesis that is never closed does
    not compile. *)
Definition stub_re_search (pattern text : string) : option bool :=
  if contains "(" pattern && negb (contains ")" pattern) then None
  else Some (contains (lower pattern) text).

Definition stub_get_text (s : string) : string := s.

Definition stub_find_img (content : string) : option (option string) := None.

Definition bot_up (m : Delivery) : bool := true.

Definition bot_down (m : Delivery) : bool := false.

Definition config1 : Config :=
  {| admin_user_ids := [1001%Z]; refresh_interval := 10; history_days := 7 |}.

Definition feed1 : Feed :=
  {| f_id := 1; f_url := "https://example.org/feed.xml"; f_title := None;
     f_description := None; f_is_active := true; f_error_count := 0;
     f_last_fetch := None |}.

Definition no_rules : Database :=
  {| feeds := [feed1]; keywords := []; sent_items := [] |}.

(** One feed and the global rule ["release"]. *)
Definition db1 : Database := snd (add_keyword "release" None "normal" no_rules).

Definition w1 : World :=
  {| db := db1; is_running := false; deliveries := []; fetched := [];
     clock := 1700000000 |}.

Definition raw_entry (title : string) (link : option string) : RawEntry :=
  {| r_title := Some title; r_links := []; r_link := link; r_summary := None;
     r_description := None; r_published := None; r_updated := None;
     r_media_content := []; r_media_thumbnail := []; r_enclosures := [];
     r_content := [] |}.

Definition document (entries : list RawEntry) : ParsedFeed :=
  {| bozo := false; pf_title := Some "Example"; pf_description := None;
     pf_link := None; pf_entries := entries |}.

(** The feed holds one entry, "New Release v2" at [u1]. *)
Definition web_release (url : string) : Response :=
  Parsed (document [raw_entry "New Release v2" (Some "u1")]).

(** The feed holds one entry that has a title and no link at all. *)
Definition web_linkless (url : string) : Response :=
  Parsed (document [raw_entry "Untethered" None]).

Definition web_down (url : string) : Response := TimeoutException.

(** The entry of [web_release] as the parser normalises it, and the same
    with its address under the key the checker reads. *)
Definition item_release : PyDict :=
  <["title" := Some "New Release v2"]>
  (<["link" := Some "u1"]>
   (<["summary" := Some ""]>
    (<["published" := None]> (<["image" := None]> ∅)))).

Definition item_release_url : PyDict := <["url" := Some "u1"]> item_release.

(** What a fetch of [web_release] returns. *)
Definition feed_data_release : FeedInfo :=
  {| fi_title := "Example"; fi_description := ""; fi_link := "";
     fi_entries := [item_release] |}.

(** No recipient configured. *)
Definition config0 : Config :=
  {| admin_user_ids := []; refresh_interval := 10; history_days := 7 |}.

(** [w1] with one record, made at the current time. *)
Definition record1 : SentItem :=
  {| item_hash := stub_sha256 "1:u0"; s_feed_id := 1; s_title := Some "Older";
     s_url := "u0"; sent_at := 1700000000 |}.

Definition w_recorded : World := set_db (with_sent_items db1 [record1]) w1.

(** An entry whose first HTML link has no address, and whose second has. *)
Definition raw_two_links : RawEntry :=
  {| r_title := Some "Two links";
     r_links := [ {| l_type := Some "text/html"; l_href := None |};
                  {| l_type := Some "text/html"; l_href := Some "later" |} ];
     r_link := Some "generic"; r_summary := None;
     r_description := None; r_published := None; r_updated := None;
     r_media_content := []; r_media_thumbnail := []; r_enclosures := [];
     r_content := [] |}.

Definition rule (pattern kind : string) : Keyword :=
  {| k_id := 1; k_feed_id := None; keyword := pattern; keyword_type := kind;
     k_is_active := true |}.

(** ** The string primitives on examples *)

Example lower_ex : lower "New Release v2" = "new release v2".
Proof. reflexivity. Qed.

Example strip_ex : strip "  a b  " = "a b".
Proof. reflexivity. Qed.

Example split_ex1 : split " -" "python -snake" = ["python"; "snake"].
Proof. reflexivity. Qed.

Example split_ex2 : split " -" "a -b -c" = ["a"; "b"; "c"].
Proof. reflexivity. Qed.

Example split_ex3 : split "+" "+a++b" = [""; "a"; ""; "b"].
Proof. reflexivity. Qed.

Example split_ex4 : split " -" "python -" = ["python"; ""].
Proof. reflexivity. Qed.

Example of_Z_ex : of_Z 12 = "12" /\ of_Z 0 = "0" /\ of_Z (-3) = "-3".
Proof. repeat split; reflexivity. Qed.

(** ** The matcher on the spec's examples *)

Example and_rule_ex :
  _match_keyword stub_re_search "Python Remote" "" (rule "python+remote" "and") = true /\
  _match_keyword stub_re_search "PYTHON only" "" (rule "python+remote" "and") = false.
Proof. split; reflexivity. Qed.

Example not_rule_ex :
  _match_keyword stub_re_search "python tutorial" "" (rule "python -snake" "not") = true /\
  _match_keyword stub_re_search "python snake game" "" (rule "python -snake" "not") = false.
Proof. split; reflexivity. Qed.

Example or_rule_ex :
  _match_keyword stub_re_search "I love django" "" (rule "django|flask" "or") = true /\
  _match_keyword stub_re_search "I love rails" "" (rule "django|flask" "or") = false.
Proof. split; reflexivity. Qed.

Example bad_regex_ex :
  _match_keyword stub_re_search "anything" "" (rule "(unclosed" "regex") = false.
Proof. reflexivity. Qed.

(** ** Rule creation *)

(** The order of the tests is the spec's; only the cut after [regex:]
    differs. *)
Lemma derive_keyword_other_kinds (raw : string) :
  startswith raw "regex:" = false ->
  derive_keyword raw "normal" = derive_as_claimed raw.
Proof. unfold derive_keyword, derive_as_claimed. by intros ->. Qed.

Lemma derive_keyword_regex (rest kind : string) :
  derive_keyword ("regex:" +:+ rest) kind = (slice_from 1 rest, "regex").
Proof.
  unfold derive_keyword, startswith.
  assert (E : String.prefix "regex:" ("regex:" +:+ rest) = true)
    by (destruct rest; reflexivity).
  rewrite E. reflexivity.
Qed.

(** C2: the rule [regex:^\d+$] of the help text is stored as kind regex with
    pattern [\d+$]: the cut is at 7, one character past the prefix, where the
    claim has [^\d+$]. *)
Theorem add_keyword_regex_cuts_at_seven :
  let kw := fst (add_keyword "regex:^\d+$" None "normal" no_rules) in
  keyword_type kw = "regex" /\
  keyword kw = "\d+$" /\
  derive_as_claimed "regex:^\d+$" = ("^\d+$", "regex") /\
  keywords (snd (add_keyword "regex:^\d+$" None "normal" no_rules)) = [kw].
Proof. cbv zeta. repeat split; reflexivity. Qed.

(** ** The [not] kind: claim against code *)

(** C4 as stated fails twice over. With two [" -"] the code does a plain
    match where the claim takes the first one as the cut; with an empty main
    part the code still does the main/exclude test where the claim falls
    back to a plain match. *)
Lemma not_rule_differs_from_claim :
  _match_keyword stub_re_search "a b" "" (rule "a -b -c" "not") = false /\
  not_rule_as_claimed "a -b -c" (lower ("a b" +:+ " " +:+ "")) = true /\
  _match_keyword stub_re_search "hello" "" (rule " -snake" "not") = true /\
  not_rule_as_claimed " -snake" (lower ("hello" +:+ " " +:+ "")) = false.
Proof. repeat split; reflexivity. Qed.

Lemma not_rule_matches_by_design_witness :
  keyword_type (rule "python -snake" "not") = "not" /\
  _match_keyword stub_re_search "python tutorial" "" (rule "python -snake" "not") = true /\
  _match_keyword stub_re_search "a b" "" (rule "a -b -c" "not") = false.
Proof.
  split; [reflexivity|]. split.
  - rewrite (not_rule_matches_by_design stub_re_search "python tutorial" ""
               (rule "python -snake" "not") eq_refl).
    reflexivity.
  - rewrite (not_rule_matches_by_design stub_re_search "a b" ""
               (rule "a -b -c" "not") eq_refl).
    reflexivity.
Defined.

(** ** A malformed regex among the rules *)

Lemma bad_regex_is_a_non_match_witness :
  keyword_type (rule "(unclosed" "regex") = "regex" /\
  stub_re_search "(unclosed" (lower ("New Release v2" +:+ " " +:+ "")) = None /\
  _match_keyword stub_re_search "New Release v2" "" (rule "(unclosed" "regex") = false /\
  match_loop stub_re_search "New Release v2" ""
    [rule "(unclosed" "regex"; rule "release" "normal"] = (true, ["release"]).
Proof.
  split; [reflexivity|]. split; [reflexivity|].
  destruct (bad_regex_is_a_non_match stub_re_search "New Release v2" ""
              (rule "(unclosed" "regex") [] [] eq_refl eq_refl)
    as (_ & Hno & _ & Hnext).
  split; [exact Hno|].
  exact (Hnext (rule "release" "normal") eq_refl eq_refl).
Defined.

(** ** The parser on a feed *)

(** C8 as stated fails: an entry with a title and no link of either sort
    is in the result of a successful fetch, its link the empty string. *)
Lemma linkless_entry_is_kept :
  let r := fetch_feed stub_get_text stub_find_img web_linkless
             "https://example.org/feed.xml" in
  let entries := match snd (fst r) with Some fd => fi_entries fd | None => [] end in
  fst (fst r) = true /\
  map (fun item : PyDict => item !! "title") entries = [Some (Some "Untethered")] /\
  map (fun item : PyDict => item !! "link") entries = [Some (Some "")].
Proof. cbv zeta. repeat split; vm_compute; reflexivity. Qed.

Lemma fetch_feed_entries_witness :
  fetch_feed stub_get_text stub_find_img web_release (f_url feed1)
    = (true, Some feed_data_release, None) /\
  (length (fi_entries feed_data_release) <= 50)%nat.
Proof.
  assert (E : fetch_feed stub_get_text stub_find_img web_release (f_url feed1)
              = (true, Some feed_data_release, None)).
  { vm_compute. reflexivity. }
  split; [exact E|].
  destruct (fetch_feed_entries stub_get_text stub_find_img web_release
              (f_url feed1) feed_data_release None E) as (doc & _ & Hlen & _).
  exact Hlen.
Defined.

(** ** The end-to-end run *)

(** C1: the sweep fetches the feed and parses the entry, and then sends
    nothing and records nothing, because the entry has its address under
    ["link"] and [check_entry] reads ["url"]. Handed the same entry with the
    address under ["url"], [check_entry] does what the claim says: one
    message to the one recipient, with [#release] in it, one record with the
    hash of [1:u1], and nothing on a second check. *)
Theorem release_entry_is_never_notified :
  let after :=
    snd (check_all_feeds stub_sha256 stub_re_search stub_get_text stub_find_img
           web_release bot_up config1 w1) in
  let check := check_entry stub_sha256 stub_re_search bot_up config1 feed1
                 item_release_url (keywords db1) in
  let direct := snd (check w1) in
  fst (fst (fetch_feed stub_get_text stub_find_img web_release (f_url feed1))) = true /\
  fetched after = [f_url feed1] /\
  deliveries after = [] /\
  sent_items (db after) = [] /\
  map (fun a => chat_id (fst a)) (deliveries direct) = [1001%Z] /\
  forallb (fun a => contains "#release" (text (fst a))) (deliveries direct) = true /\
  map item_hash (sent_items (db direct)) = [stub_sha256 "1:u1"] /\
  check direct = (Ok tt, direct).
Proof. cbv zeta. repeat split; vm_compute; reflexivity. Qed.

(** ** Delivery that fails for every recipient *)

Lemma matched_entry_is_marked_sent_witness :
  truthy (entry_url item_release_url) = true /\
  is_sent (entry_hash stub_sha256 feed1 item_release_url) (db w1) = false /\
  fst (match_loop stub_re_search (entry_title item_release_url)
         (entry_summary item_release_url) (keywords db1)) = true /\
  is_sent (entry_hash stub_sha256 feed1 item_release_url)
    (db (snd (check_entry stub_sha256 stub_re_search bot_down config1 feed1
                item_release_url (keywords db1) w1))) = true.
Proof.
  assert (Hu : truthy (entry_url item_release_url) = true)
    by (vm_compute; reflexivity).
  assert (Hs : is_sent (entry_hash stub_sha256 feed1 item_release_url) (db w1) = false)
    by (vm_compute; reflexivity).
  assert (Hm : fst (match_loop stub_re_search (entry_title item_release_url)
                      (entry_summary item_release_url) (keywords db1)) = true)
    by (vm_compute; reflexivity).
  split; [exact Hu|]. split; [exact Hs|]. split; [exact Hm|].
  destruct (matched_entry_is_marked_sent stub_sha256 stub_re_search bot_down config1
              feed1 item_release_url (keywords db1) w1 Hu Hs Hm)
    as (_ & _ & _ & _ & _ & H).
  exact H.
Defined.

(** ** Marking twice *)

Lemma mark_sent_twice_one_record_witness :
  unique_hashes (db w1) /\
  length (records_of (compute_hash stub_sha256 1 "u1")
            (db (snd (mark_sent stub_sha256 1 (Some "New Release v2") "u1"
                        (snd (mark_sent stub_sha256 1 (Some "New Release v2") "u1" w1))))))
  = 1%nat.
Proof.
  assert (Hu : unique_hashes (db w1)) by apply NoDup_nil_2.
  split; [exact Hu|].
  destruct (mark_sent_twice_one_record stub_sha256 stub_re_search bot_up config1
              1 (Some "New Release v2") (Some "New Release v2") "u1" w1 Hu)
    as (_ & H & _).
  exact H.
Defined.

(** ** Ten failures in a row *)

Lemma error_count_policy_witness :
  get_feed_by_id (f_id feed1) (db w1) = Some feed1 /\
  applicable feed1 (get_global_keywords db1) (db w1) <> [] /\
  active_flag (f_id feed1)
    (db (checks stub_sha256 stub_re_search stub_get_text stub_find_img web_down
           bot_up config1 9 feed1 (get_global_keywords db1) w1)) = Some true /\
  active_flag (f_id feed1)
    (db (checks stub_sha256 stub_re_search stub_get_text stub_find_img web_down
           bot_up config1 10 feed1 (get_global_keywords db1) w1)) = Some false.
Proof.
  assert (Hrow : get_feed_by_id (f_id feed1) (db w1) = Some feed1) by reflexivity.
  assert (Hk : applicable feed1 (get_global_keywords db1) (db w1) <> [])
    by (vm_compute; discriminate).
  split; [exact Hrow|]. split; [exact Hk|].
  destruct (error_count_policy stub_sha256 stub_re_search stub_get_text stub_find_img
              web_down bot_up config1 feed1 (get_global_keywords db1) w1 feed1 Hrow Hk)
    as (Hfail & _ & _).
  destruct (Hfail eq_refl) as (_ & _ & _ & Hn).
  split.
  - destruct (Hn eq_refl 9%nat) as (r & E & _ & A).
    unfold active_flag. rewrite E. cbn [fmap option_fmap option_map]. rewrite A.
    reflexivity.
  - destruct (Hn eq_refl 10%nat) as (r & E & _ & A).
    unfold active_flag. rewrite E. cbn [fmap option_fmap option_map]. rewrite A.
    reflexivity.
Defined.

(** ** A trigger during a sweep *)

Lemma sweep_guard_witness :
  is_running (set_running true w1) = true /\
  check_all_feeds stub_sha256 stub_re_search stub_get_text stub_find_img web_release
    bot_up config1 (set_running true w1) = (Ok tt, set_running true w1) /\
  is_running w1 = false /\
  is_running (snd (guarded config1 (raise TransportError) w1)) = false /\
  guarded config1 (fun w0 => (Ok tt, log_fetch (if is_running w0 then "set" else "clear") w0)) w1
  = (Ok tt,
     set_db (clean_old_sent_items (clock w1) (history_days config1) (db w1))
            (log_fetch "set" w1)).
Proof.
  destruct (sweep_guard stub_sha256 stub_re_search stub_get_text stub_find_img
              web_release bot_up config1 (set_running true w1) (ret tt))
    as (Hon & _).
  destruct (sweep_guard stub_sha256 stub_re_search stub_get_text stub_find_img
              web_release bot_up config1 w1 (raise TransportError))
    as (_ & Hoff & _).
  destruct (sweep_guard stub_sha256 stub_re_search stub_get_text stub_find_img
              web_release bot_up config1 w1
              (fun w0 => (Ok tt, log_fetch (if is_running w0 then "set" else "clear") w0)))
    as (_ & Hprobe & _).
  split; [reflexivity|]. split; [exact (proj1 (Hon eq_refl))|].
  split; [reflexivity|].
  split; [exact (proj1 (proj2 (proj2 (Hoff eq_refl))))|].
  rewrite (proj1 (Hprobe eq_refl)). reflexivity.
Defined.

(** * The further properties on concrete inputs *)

Lemma plain_rule_matches_either_field_witness :
  keyword_type (rule "release" "normal") = "normal" /\
  contains (lower (keyword (rule "release" "normal"))) (lower "New Release v2") = true /\
  _match_keyword stub_re_search "New Release v2" "no summary" (rule "release" "normal") = true.
Proof.
  split; [reflexivity|]. split; [reflexivity|].
  apply (plain_rule_matches_either_field stub_re_search "New Release v2" "no summary"
           (rule "release" "normal") eq_refl).
  left. reflexivity.
Defined.

Lemma or_rule_with_empty_alternative_witness :
  In "" (split "|" (keyword (rule "django|" "or"))) /\
  _match_keyword stub_re_search "I love rails" "" (rule "django|" "or") = true.
Proof.
  assert (Hin : In "" (split "|" (keyword (rule "django|" "or")))).
  { right. left. reflexivity. }
  split; [exact Hin|].
  exact (or_rule_with_empty_alternative stub_re_search "I love rails" "" ""
           (rule "django|" "or") eq_refl Hin eq_refl).
Defined.

Lemma plain_keyword_added_matches_by_containment_witness :
  startswith "release" "regex:" = false /\
  contains " -" "release" = false /\
  _match_keyword stub_re_search "New Release v2" ""
    (fst (add_keyword "release" None "normal" no_rules)) = true.
Proof.
  split; [reflexivity|]. split; [reflexivity|].
  destruct (plain_keyword_added_matches_by_containment stub_re_search "release" None
              no_rules "New Release v2" "" eq_refl eq_refl eq_refl eq_refl)
    as (_ & _ & _ & H).
  rewrite H. reflexivity.
Defined.

Lemma check_entries_keep_store_sound_witness :
  unique_hashes (db w1) /\
  fst (for_each [item_release_url; item_release_url]
         (fun entry => check_entry stub_sha256 stub_re_search bot_up config1 feed1 entry
                         (keywords db1)) w1) = Ok tt.
Proof.
  assert (Hu : unique_hashes (db w1)) by apply NoDup_nil_2.
  split; [exact Hu|].
  exact (proj1 (check_entries_keep_store_sound stub_sha256 stub_re_search bot_up config1
                  feed1 [item_release_url; item_release_url] (keywords db1) w1 Hu)).
Defined.

Lemma no_recipient_still_marks_sent_witness :
  admin_user_ids config0 = [] /\
  truthy (entry_url item_release_url) = true /\
  is_sent (entry_hash stub_sha256 feed1 item_release_url) (db w1) = false /\
  deliveries (snd (check_entry stub_sha256 stub_re_search bot_up config0 feed1
                     item_release_url (keywords db1) w1)) = [] /\
  is_sent (entry_hash stub_sha256 feed1 item_release_url)
    (db (snd (check_entry stub_sha256 stub_re_search bot_up config0 feed1
                item_release_url (keywords db1) w1))) = true.
Proof.
  assert (Hu : truthy (entry_url item_release_url) = true)
    by (vm_compute; reflexivity).
  assert (Hs : is_sent (entry_hash stub_sha256 feed1 item_release_url) (db w1) = false)
    by (vm_compute; reflexivity).
  assert (Hm : fst (match_loop stub_re_search (entry_title item_release_url)
                      (entry_summary item_release_url) (keywords db1)) = true)
    by (vm_compute; reflexivity).
  split; [reflexivity|]. split; [exact Hu|]. split; [exact Hs|].
  exact (no_recipient_still_marks_sent stub_sha256 stub_re_search bot_up config0 feed1
           item_release_url (keywords db1) w1 eq_refl Hu Hs Hm).
Defined.

Lemma delete_keyword_removes_that_rule_witness :
  NoDup (map k_id (keywords db1)) /\
  In (rule "release" "normal") (get_global_keywords db1) /\
  ~ In (rule "release" "normal") (get_global_keywords (delete_keyword 1 db1)).
Proof.
  assert (Hnd : NoDup (map k_id (keywords db1))).
  { apply NoDup_cons_2; [apply not_elem_of_nil | apply NoDup_nil_2]. }
  split; [exact Hnd|]. split; [left; reflexivity|].
  destruct (delete_keyword_removes_that_rule 1 db1 (rule "release" "normal") Hnd)
    as (_ & Hg & _).
  intros Hin. apply Hg in Hin as [_ Hk]. apply Hk. reflexivity.
Defined.

Lemma sweep_fetches_active_feeds_with_rules_witness :
  is_running w1 = false /\
  fetched (snd (check_all_feeds stub_sha256 stub_re_search stub_get_text stub_find_img
                  web_release bot_up config1 w1)) = [f_url feed1].
Proof.
  split; [reflexivity|].
  rewrite (sweep_fetches_active_feeds_with_rules stub_sha256 stub_re_search stub_get_text
             stub_find_img web_release bot_up config1 w1 eq_refl).
  vm_compute. reflexivity.
Defined.

Lemma sweep_purges_old_records_witness :
  is_running w_recorded = false /\
  In record1
     (sent_items (db (snd (check_all_feeds stub_sha256 stub_re_search stub_get_text
                             stub_find_img web_release bot_up config1 w_recorded)))) /\
  (clock w_recorded - history_days config1 * SECONDS_PER_DAY <= sent_at record1)%Z.
Proof.
  assert (Hin : In record1
     (sent_items (db (snd (check_all_feeds stub_sha256 stub_re_search stub_get_text
                             stub_find_img web_release bot_up config1 w_recorded))))).
  { vm_compute. left. reflexivity. }
  split; [reflexivity|]. split; [exact Hin|].
  exact (sweep_purges_old_records stub_sha256 stub_re_search stub_get_text stub_find_img
           web_release bot_up config1 w_recorded record1 eq_refl Hin).
Defined.

Lemma add_feed_subscribes_once_witness :
  List.find (fun f => String.eqb (f_url f) (f_url feed1)) (feeds no_rules) = Some feed1 /\
  add_feed (f_url feed1) (Some "Again") None no_rules = (feed1, no_rules).
Proof.
  split; [reflexivity|].
  destruct (add_feed_subscribes_once (f_url feed1) (Some "Again") None None None no_rules)
    as (H & _).
  exact (H feed1 eq_refl).
Defined.

Lemma feed_update_is_local_witness :
  1%Z <> 2%Z /\
  get_feed_by_id 1 (increment_error 2 no_rules) = Some feed1.
Proof.
  assert (Hne : 1%Z <> 2%Z) by discriminate.
  split; [exact Hne|].
  destruct (feed_update_is_local 2 1 (mkFeedPatch None None None None None) no_rules Hne)
    as (_ & H).
  rewrite H. reflexivity.
Defined.

Lemma update_missing_feed_changes_nothing_witness :
  get_feed_by_id 99 no_rules = None /\ increment_error 99 no_rules = no_rules.
Proof.
  split; [reflexivity|].
  exact (proj2 (update_missing_feed_changes_nothing 99
                  (mkFeedPatch None None None None None) no_rules eq_refl)).
Defined.

Lemma parsed_entry_shape_witness :
  _parse_entry stub_get_text stub_find_img (raw_entry "New Release v2" (Some "u1"))
    = Some item_release /\
  item_release !! "summary" = Some (Some "").
Proof.
  assert (E : _parse_entry stub_get_text stub_find_img
                (raw_entry "New Release v2" (Some "u1")) = Some item_release)
    by (vm_compute; reflexivity).
  split; [exact E|].
  destruct (parsed_entry_shape stub_get_text stub_find_img _ _ E) as (_ & _ & H).
  exact (H eq_refl).
Defined.

Lemma first_html_link_decides_witness :
  is_Some (_parse_entry stub_get_text stub_find_img raw_two_links) /\
  match _parse_entry stub_get_text stub_find_img raw_two_links with
  | Some item => item !! "link"
  | None => None
  end = Some (Some "generic").
Proof.
  split; [vm_compute; eexists; reflexivity|].
  destruct (_parse_entry stub_get_text stub_find_img raw_two_links) as [item|] eqn:E.
  - exact (first_html_link_decides stub_get_text stub_find_img raw_two_links item []
             [ {| l_type := Some "text/html"; l_href := Some "later" |} ]
             {| l_type := Some "text/html"; l_href := None |}
             E eq_refl (Forall_nil_2 _) eq_refl).
  - vm_compute in E. discriminate E.
Defined.

Lemma admin_check_open_without_valid_id_witness :
  Forall (fun uid => isdigit (strip uid) = false) (split "," "abc, -5,") /\
  is_admin {| admin_user_ids := parse_admin_user_ids "abc, -5,";
              refresh_interval := 10; history_days := 7 |} 4711 = true.
Proof.
  assert (H : Forall (fun uid => isdigit (strip uid) = false) (split "," "abc, -5,")).
  { repeat constructor. }
  split; [exact H|].
  exact (proj2 (admin_check_open_without_valid_id "abc, -5," 10 7 4711 H)).
Defined.

Lemma admin_ids_round_trip_witness :
  Forall (fun id => (0 <= id)%Z) [1001%Z; 42%Z] /\
  parse_admin_user_ids "1001,42" = [1001%Z; 42%Z].
Proof.
  assert (H : Forall (fun id => (0 <= id)%Z) [1001%Z; 42%Z]).
  { repeat constructor; discriminate. }
  split; [exact H|].
  exact (admin_ids_round_trip [1001%Z; 42%Z] H).
Defined.

Lemma add_then_delete_keyword_witness :
  (forall row, In row (keywords db1) -> k_id row <> 99%Z) /\
  delete_keyword 99 db1 = db1.
Proof.
  assert (Hno : forall row, In row (keywords db1) -> k_id row <> 99%Z).
  { intros row [<-|[]]. discriminate. }
  split; [exact Hno|].
  exact (proj2 (add_then_delete_keyword "release" "normal" None db1) 99%Z Hno).
Defined.

